(** * Markdown-to-presentation generator and output verifier

    A shallow embedding of [generate_presentations.py] (section parser,
    slide renderer, document renderer) and of [verify_presentations.py]
    (the three file checks and the exit code), with the properties of the
    specification stated and settled against the embedded code.

    Python strings are sequences of Unicode code points; a character is
    its code point, an [N].  The two authoring libraries (python-pptx and
    reportlab) are not part of the repository: the renderers are modelled
    by what they build through the library, the slides with the paragraphs
    of their text frames and the flowables of the story, and by the calls
    on which the library raises. *)

From Stdlib Require Import Strings.String Strings.Ascii.
From Stdlib Require Import List NArith ZArith Bool Lia.
Import ListNotations.

Set Implicit Arguments.

(** What a call that may raise gives. *)
Inductive outcome (A : Type) :=
  | Returns (a : A)
  | Raises.
Arguments Returns {A} a.
Arguments Raises {A}.

(** ** Python strings *)

Module PyStr.

Definition char := N.
Definition pystr := list char.

(** An ASCII literal as a Python string. *)
Definition str (s : string) : pystr :=
  map N_of_ascii (list_ascii_of_string s).
Arguments str _%_string.

Definition nl : char := 10%N.

(** [str.isspace] on one character (CPython's [Py_UNICODE_ISSPACE]). *)
Definition isspace (c : char) : bool :=
  ((9 <=? c) && (c <=? 13) || (28 <=? c) && (c <=? 32)
   || (c =? 133) || (c =? 160) || (c =? 5760)
   || (8192 <=? c) && (c <=? 8202)
   || (c =? 8232) || (c =? 8233) || (c =? 8239) || (c =? 8287)
   || (c =? 12288))%N.

(** [s.lstrip()], [s.rstrip()], [s.strip()]. *)
Fixpoint lstrip (s : pystr) : pystr :=
  match s with
  | c :: s' => if isspace c then lstrip s' else s
  | [] => []
  end.

Definition rstrip (s : pystr) : pystr := rev (lstrip (rev s)).

Definition strip (s : pystr) : pystr := rstrip (lstrip s).

(** Truth value of a string: non-empty. *)
Definition nonempty (s : pystr) : bool :=
  match s with [] => false | _ :: _ => true end.

(** [s.startswith(p)]. *)
Fixpoint startswith (p s : pystr) : bool :=
  match p, s with
  | [], _ => true
  | _ :: _, [] => false
  | a :: p', b :: s' => (a =? b)%N && startswith p' s'
  end.

(** [s.split(sep)] for a one-character separator: never the empty list. *)
Fixpoint split (sep : char) (s : pystr) : list pystr :=
  match s with
  | [] => [[]]
  | c :: s' =>
      if (c =? sep)%N then [] :: split sep s'
      else match split sep s' with
           | l :: ls => (c :: l) :: ls
           | [] => [[c]]
           end
  end.

(** [sep.join(parts)]. *)
Fixpoint join (sep : pystr) (parts : list pystr) : pystr :=
  match parts with
  | [] => []
  | [p] => p
  | p :: rest => p ++ sep ++ join sep rest
  end.

(** [s.replace(old, new)] for a non-empty [old]: occurrences are replaced
    left to right without overlap.  [skip] counts the characters of a
    matched occurrence still to be passed over. *)
Fixpoint replace_from (old new : pystr) (skip : nat) (s : pystr) : pystr :=
  match s with
  | [] => []
  | c :: s' =>
      match skip with
      | S k => replace_from old new k s'
      | O =>
          if startswith old s
          then new ++ replace_from old new (length old - 1) s'
          else c :: replace_from old new 0 s'
      end
  end.

Definition replace (old new s : pystr) : pystr := replace_from old new 0 s.

(** [s.find(pat)]: index of the first occurrence. *)
Fixpoint find (pat s : pystr) : option nat :=
  if startswith pat s then Some 0
  else match s with
       | [] => None
       | _ :: s' => option_map S (find pat s')
       end.

(** [pat in s]. *)
Definition contains (pat s : pystr) : bool :=
  match find pat s with Some _ => true | None => false end.

End PyStr.
Import PyStr.

(** ** The section parser: [parse_markdown] *)

Module Parser.

(** A section record, the dict appended to [sections].  [title] is [None]
    for Python's [None] (no [##] header seen yet).  [parent] is [None]
    when the dict has no ['parent'] key (level 1), and [Some p] when it
    has one, whose value [p] may itself be Python's [None]. *)
Record section_rec := mk_section {
  title : option pystr;
  content : pystr;
  level : Z;
  parent : option (option pystr)
}.

(** The local variables of the loop. *)
Record pstate := mk_pstate {
  sections : list section_rec;
  current_section : option pystr;
  current_content : list pystr
}.

Definition initial : pstate := mk_pstate [] None [].

(** Truth value of [current_section]: neither [None] nor empty. *)
Definition truthy (t : option pystr) : bool :=
  match t with
  | Some s => nonempty s
  | None => false
  end.

(** Truth value of a list: non-empty. *)
Definition has_items {A} (l : list A) : bool :=
  match l with [] => false | _ :: _ => true end.

(** The level-1 dict built from the running title and content. *)
Definition flushed (st : pstate) : section_rec :=
  mk_section (current_section st)
             (strip (join [nl] (current_content st))) 1 None.

(** The [if]/[elif] chain of the loop body, in source order. *)
Inductive line_kind :=
  | MainHeader | SubHeader | SubSubHeader | Fence | Bullet | Text | Skipped.

Definition classify (line : pystr) : line_kind :=
  if startswith (str "## ") line then MainHeader
  else if startswith (str "### ") line then SubHeader
  else if startswith (str "#### ") line then SubSubHeader
  else if startswith (str "```") line then Fence
  else if startswith (str "- ") line || startswith (str "* ") line then Bullet
  else if nonempty (strip line) && negb (startswith (str "---") line) then Text
  else Skipped.

(** Branch [## ]: close the open section if its title is truthy, open a
    new one. *)
Definition on_main (line : pystr) (st : pstate) : pstate :=
  mk_pstate
    (if truthy (current_section st)
     then sections st ++ [flushed st] else sections st)
    (Some (strip (skipn 3 line)))
    [].

(** Branch [### ]: flush pending content under the current title, then
    append the level-2 dict. *)
Definition on_sub (line : pystr) (st : pstate) : pstate :=
  let sub := mk_section (Some (strip (skipn 4 line))) [] 2
                        (Some (current_section st)) in
  if has_items (current_content st)
  then mk_pstate (sections st ++ [flushed st] ++ [sub]) (current_section st) []
  else mk_pstate (sections st ++ [sub]) (current_section st)
                 (current_content st).

(** [current_content.append(x)]. *)
Definition push (x : pystr) (st : pstate) : pstate :=
  mk_pstate (sections st) (current_section st) (current_content st ++ [x]).

(** Branch [#### ]: the title goes into the content between two newlines. *)
Definition on_subsub (line : pystr) (st : pstate) : pstate :=
  push ([nl] ++ strip (skipn 5 line) ++ [nl]) st.

(** The text appended for a fenced block whose lines are [code_lines]. *)
Definition code_region (code_lines : list pystr) : pystr :=
  [nl] ++ str "[CODE]" ++ [nl] ++ join [nl] (firstn 15 code_lines)
  ++ [nl] ++ str "[/CODE]" ++ [nl].

Definition on_fence (code_lines : list pystr) (st : pstate) : pstate :=
  push (code_region code_lines) st.

(** The [while i < len(lines)] loop on the lines from index [i] on.  The
    inner loop of the fence branch gathers [code_lines] up to the closing
    fence, which the final [i += 1] steps over, or up to the end. *)
Fixpoint parse_loop (lines : list pystr) (st : pstate) : pstate :=
  match lines with
  | [] => st
  | line :: rest =>
      match classify line with
      | MainHeader => parse_loop rest (on_main line st)
      | SubHeader => parse_loop rest (on_sub line st)
      | SubSubHeader => parse_loop rest (on_subsub line st)
      | Fence =>
          (fix code_loop (ls code_lines : list pystr) : pstate :=
             match ls with
             | [] => on_fence code_lines st
             | l :: ls' =>
                 if startswith (str "```") l
                 then parse_loop ls' (on_fence code_lines st)
                 else code_loop ls' (code_lines ++ [l])
             end) rest []
      | Bullet => parse_loop rest (push line st)
      | Text => parse_loop rest (push line st)
      | Skipped => parse_loop rest st
      end
  end.

(** [parse_markdown], from the text read from the file. *)
Definition parse_markdown (text : pystr) : list section_rec :=
  let st := parse_loop (split nl text) initial in
  if truthy (current_section st)
  then sections st ++ [flushed st] else sections st.

End Parser.
Import Parser.

(** ** The regular expression [\[CODE\](.*?)\[/CODE\]] with [re.DOTALL] *)

Module CodeRe.

Definition open_tag : pystr := str "[CODE]".
Definition close_tag : pystr := str "[/CODE]".

(** [re.search]: the leftmost [open_tag] and, the group being lazy and
    matching newlines, the first [close_tag] after it.  The result is the
    text before the match, group 1, and the text after the match.  When
    no [close_tag] follows the leftmost [open_tag], none follows a later
    one either, and there is no match. *)
Definition search (s : pystr) : option (pystr * pystr * pystr) :=
  match find open_tag s with
  | None => None
  | Some i =>
      let after := skipn (i + length open_tag) s in
      match find close_tag after with
      | None => None
      | Some j =>
          Some (firstn i s, firstn j after, skipn (j + length close_tag) after)
      end
  end.

(** [re.split]: the pieces between the matches, with group 1 of each
    match in between.  Each match consumes at least the two tags, so
    [fuel] = length of the string is enough. *)
Fixpoint split_fuel (fuel : nat) (s : pystr) : list pystr :=
  match fuel with
  | O => [s]
  | S fuel' =>
      match search s with
      | None => [s]
      | Some (before, group, rest) => before :: group :: split_fuel fuel' rest
      end
  end.

Definition re_split (s : pystr) : list pystr := split_fuel (length s) s.

End CodeRe.

(** ** The slide renderer: [create_powerpoint] *)

Module Slides.

(** A paragraph of a text frame, with what the renderer assigns to it:
    [None] where it assigns nothing. *)
Record paragraph := mk_paragraph {
  p_text : pystr;
  p_level : option Z;
  p_font_size : option Z;
  p_font_name : option pystr
}.

Definition blank : paragraph := mk_paragraph [] None None None.

(** [tf.clear()] removes every paragraph but one, which it empties: the
    [tf.paragraphs[0]] that the code branch takes right after the call
    (line 133).  [tf.add_paragraph()] appends a new paragraph after the
    ones the frame has. *)
Definition tf_clear : list paragraph := [blank].

Inductive slide :=
  | TitleSlide (title subtitle : pystr)
  | ContentSlide (title : pystr) (body : option (list paragraph)).

(** [line.replace('**', '').replace('`', '').strip()]. *)
Definition clean_line (line : pystr) : pystr :=
  strip (replace (str "`") [] (replace (str "**") [] line)).

(** The body of the [for line in lines[:10]] loop. *)
Definition line_paragraph (line : pystr) : paragraph :=
  let clean := clean_line line in
  if startswith (str "- ") clean || startswith (str "* ") clean
  then mk_paragraph (skipn 2 clean) (Some 0%Z) (Some 14%Z) None
  else if startswith (str "  - ") clean || startswith (str "  * ") clean
  then mk_paragraph (skipn 4 clean) (Some 1%Z) (Some 14%Z) None
  else mk_paragraph clean None (Some 14%Z) None.

(** [[l for l in text.split('\n') if l.strip()]]. *)
Definition nonblank_lines (text : pystr) : list pystr :=
  filter (fun l => nonempty (strip l)) (split nl text).

(** The text frame of the content placeholder after the section's content
    is processed; [None] when the frame is never touched (a [[CODE]] with
    no closing tag). *)
Definition slide_body (text_content : pystr) : option (list paragraph) :=
  if contains (str "[CODE]") text_content then
    match CodeRe.search text_content with
    | Some (_, group, _) =>
        Some [mk_paragraph (firstn 500 (strip group)) None (Some 10%Z)
                           (Some (str "Courier New"))]
    | None => None
    end
  else
    Some (tf_clear ++ map line_paragraph (firstn 10 (nonblank_lines text_content))).

Definition title_slide : slide :=
  TitleSlide (str "Data Access Layer dengan Dapper")
             (str "Panduan Lengkap Implementasi Dapper di .NET").

(** The body of [for section in sections]: the slides added for the
    sections from the given one on.  [title.text = section['title']]
    (line 120) raises when the title is [None]: the run stops there. *)
Fixpoint content_slides (sections : list section_rec) : outcome (list slide) :=
  match sections with
  | [] => Returns []
  | section :: rest =>
      if (level section =? 1)%Z then
        match title section with
        | None => Raises
        | Some text =>
            match content_slides rest with
            | Returns slides =>
                Returns (ContentSlide text (slide_body (content section))
                         :: slides)
            | Raises => Raises
            end
        end
      else content_slides rest
  end.

(** The slides of the deck that [prs.save] writes, in order; [Raises]
    when the loop raised, and then no deck is written. *)
Definition create_powerpoint (sections : list section_rec)
  : outcome (list slide) :=
  match content_slides sections with
  | Returns slides => Returns (title_slide :: slides)
  | Raises => Raises
  end.

End Slides.

(** ** The document renderer: [create_pdf] *)

Module Pdf.

Inductive style :=
  | TitleStyle | NormalStyle | HeadingStyle | SubHeadingStyle
  | BodyStyle | CodeStyle.

(** The flowables appended to [story].  A spacer carries its height in
    tenths of an inch. *)
Inductive flowable :=
  | Paragraph (text : pystr) (st : style)
  | Preformatted (text : pystr) (st : style)
  | Spacer (tenths : Z)
  | PageBreak.

(** The bullet sign U+2022 followed by a space. *)
Definition bullet : pystr := [8226%N; 32%N].

Definition unmark (line : pystr) : pystr :=
  strip (replace (str "`") [] (replace (str "**") [] line)).

(** Escaping as written for the text around a code region (lines 241-242):
    the angle brackets first, the ampersand last. *)
Definition escape_around_code (clean : pystr) : pystr :=
  replace (str "&") (str "&amp;")
    (replace (str ">") (str "&gt;") (replace (str "<") (str "&lt;") clean)).

(** Escaping as written for content without a code region (line 260):
    the ampersand first. *)
Definition escape_plain (clean : pystr) : pystr :=
  replace (str ">") (str "&gt;")
    (replace (str "<") (str "&lt;") (replace (str "&") (str "&amp;") clean)).

Definition nonblank_lines (text : pystr) : list pystr :=
  filter (fun l => nonempty (strip l)) (split nl text).

(** One line of the text around a code region. *)
Definition around_code_line (line : pystr) : list flowable :=
  let clean := escape_around_code (unmark line) in
  if startswith (str "- ") clean || startswith (str "* ") clean
  then [Paragraph (bullet ++ skipn 2 clean) BodyStyle]
  else if nonempty clean then [Paragraph clean BodyStyle]
  else [].

(** One line of content without a code region. *)
Definition plain_line (line : pystr) : list flowable :=
  let clean := escape_plain (unmark line) in
  if startswith (str "- ") clean || startswith (str "* ") clean
  then [Paragraph (bullet ++ skipn 2 clean) BodyStyle]
  else if startswith (str "  - ") clean || startswith (str "  * ") clean
  then [Paragraph ([32%N; 32%N] ++ bullet ++ skipn 4 clean) BodyStyle]
  else if nonempty clean then [Paragraph clean BodyStyle]
  else [].

(** One element of [enumerate(parts)]: text at even indexes, code at odd
    ones. *)
Definition part_flow (ip : nat * pystr) : list flowable :=
  let (i, part) := ip in
  if Nat.even i then
    if nonempty (strip part)
    then flat_map around_code_line (nonblank_lines part)
    else []
  else
    map (fun code_line => Preformatted code_line CodeStyle)
        (firstn 20 (split nl (strip part)))
    ++ [Spacer 1].

Definition enumerate {A} (l : list A) : list (nat * A) :=
  combine (seq 0 (length l)) l.

Definition content_flow (content : pystr) : list flowable :=
  if contains (str "[CODE]") content
  then flat_map part_flow (enumerate (CodeRe.re_split content))
  else flat_map plain_line (nonblank_lines content).

(** [Paragraph(text, style)] parses its text as markup when it is built
    and raises on a text it cannot parse, and on [None].  A text with
    neither [<] nor [&] holds no markup and is taken as it is; what the
    parser of the library answers on the other texts is the parameter
    [parses].  The paragraphs made from the content carry escaped text
    (no [<], and [&] only at the head of [&amp;], [&lt;] or [&gt;]), which
    the parser takes; the headings carry the title as it is. *)
Definition markup_free (text : pystr) : bool :=
  negb (existsb (fun c => (c =? 60)%N || (c =? 38)%N) text).

Definition heading (parses : pystr -> bool) (title : option pystr)
    (st : style) : outcome flowable :=
  match title with
  | None => Raises
  | Some text =>
      if markup_free text || parses text then Returns (Paragraph text st)
      else Raises
  end.

(** The flowables appended for one section (lines 223-273); [Raises]
    when the heading cannot be built, before anything of the section is
    appended. *)
Definition section_flow (parses : pystr -> bool) (section : section_rec)
  : outcome (list flowable) :=
  if (level section =? 1)%Z then
    match heading parses (title section) HeadingStyle with
    | Returns h =>
        Returns ([h; Spacer 2] ++ content_flow (content section) ++ [Spacer 3])
    | Raises => Raises
    end
  else if (level section =? 2)%Z then
    match heading parses (title section) SubHeadingStyle with
    | Returns h => Returns [h; Spacer 1]
    | Raises => Raises
    end
  else Returns [].

Definition title_page : list flowable :=
  [Spacer 20;
   Paragraph (str "Data Access Layer dengan Dapper") TitleStyle;
   Spacer 3;
   Paragraph (str "Panduan Lengkap Implementasi Dapper di .NET") NormalStyle;
   PageBreak].

(** The body of [for section in sections], from the given section on. *)
Fixpoint sections_flow (parses : pystr -> bool) (sections : list section_rec)
  : outcome (list flowable) :=
  match sections with
  | [] => Returns []
  | section :: rest =>
      match section_flow parses section with
      | Raises => Raises
      | Returns flow =>
          match sections_flow parses rest with
          | Returns more => Returns (flow ++ more)
          | Raises => Raises
          end
      end
  end.

(** The story handed to [doc.build]; [Raises] when the loop raised, and
    then no document is built. *)
Definition create_pdf (parses : pystr -> bool) (sections : list section_rec)
  : outcome (list flowable) :=
  match sections_flow parses sections with
  | Returns flow => Returns (title_page ++ flow)
  | Raises => Raises
  end.

End Pdf.

(** ** The output verifier: [verify_presentations.py] *)

Module Verify.

(** The file system as the three checks observe it: for each file, what
    [os.path.exists] answers and what the later calls give.  [deck_slides]
    is [len(Presentation(filename).slides)], [pdf_bytes] the bytes of the
    file opened in binary mode, [doc_text] the text read from the
    companion file. *)
Record files := mk_files {
  deck_exists : bool;
  deck_slides : outcome nat;
  deck_size : outcome N;
  pdf_exists : bool;
  pdf_size : outcome N;
  pdf_bytes : outcome (list N);
  doc_exists : bool;
  doc_text : outcome pystr
}.

(** The lines printed, by what they report. *)
Inductive report :=
  | NotFound (file : pystr)
  | Verified (what : pystr)
  | FileName (file : pystr)
  | SizeBytes (n : N)
  | SizeChars (n : nat)
  | SlideCount (n : nat)
  | TooFewSlides (n : nat)
  | InvalidHeader
  | MissingSections (names : list pystr)
  | ErrorOpening (what : pystr)
  | Rule
  | Heading
  | EmptyLine
  | AllPassed
  | SomeFailed.

Definition deck_file : pystr := str "Data-Access-Layer-Presentation.pptx".
Definition pdf_file : pystr := str "Data-Access-Layer-Presentation.pdf".
Definition doc_file : pystr := str "PRESENTATION-README.md".

Definition verify_powerpoint (fs : files) : bool * list report :=
  if negb (deck_exists fs) then (false, [NotFound deck_file])
  else
    match deck_slides fs with
    | Raises => (false, [ErrorOpening (str "PowerPoint")])
    | Returns num_slides =>
        match deck_size fs with
        | Raises =>
            (false, [Verified (str "PowerPoint"); FileName deck_file;
                     ErrorOpening (str "PowerPoint")])
        | Returns size =>
            let printed := [Verified (str "PowerPoint"); FileName deck_file;
                            SizeBytes size; SlideCount num_slides] in
            if num_slides <? 10
            then (false, printed ++ [TooFewSlides num_slides])
            else (true, printed)
        end
    end.

Definition pdf_magic : list N := str "%PDF-".

(** [a == b] on byte strings. *)
Definition bytes_eqb (a b : list N) : bool :=
  if list_eq_dec N.eq_dec a b then true else false.

Definition verify_pdf (fs : files) : bool * list report :=
  if negb (pdf_exists fs) then (false, [NotFound pdf_file])
  else
    match pdf_size fs with
    | Raises => (false, [ErrorOpening (str "PDF")])
    | Returns size =>
        let printed := [Verified (str "PDF"); FileName pdf_file;
                        SizeBytes size] in
        match pdf_bytes fs with
        | Raises => (false, printed ++ [ErrorOpening (str "PDF")])
        | Returns bytes =>
            let header := firstn 5 bytes in
            if negb (bytes_eqb header pdf_magic)
            then (false, printed ++ [InvalidHeader])
            else (true, printed)
        end
    end.

Definition required_sections : list pystr :=
  [str "File Presentasi"; str "Cara Menggunakan"; str "Regenerate"].

Definition verify_documentation (fs : files) : bool * list report :=
  if negb (doc_exists fs) then (false, [NotFound doc_file])
  else
    match doc_text fs with
    | Raises => (false, [ErrorOpening (str "documentation")])
    | Returns content =>
        let printed := [Verified (str "Documentation"); FileName doc_file;
                        SizeChars (length content)] in
        let missing :=
          filter (fun s => negb (contains s content)) required_sections in
        if has_items missing
        then (false, printed ++ [MissingSections missing])
        else (true, printed)
    end.

(** [all(results)]. *)
Definition all (results : list bool) : bool := forallb (fun b => b) results.

(** [main]: the three checks in order, each run whatever the others
    gave; the exit code and everything printed. *)
Definition main (fs : files) : Z * list report :=
  let banner := [Rule; Heading; Rule; EmptyLine] in
  let (r1, out1) := verify_powerpoint fs in
  let (r2, out2) := verify_pdf fs in
  let (r3, out3) := verify_documentation fs in
  let results := [r1; r2; r3] in
  let printed :=
    banner ++ out1 ++ [EmptyLine] ++ out2 ++ [EmptyLine] ++ out3
    ++ [EmptyLine; Rule] in
  if all results
  then (0%Z, printed ++ [AllPassed; Rule])
  else (1%Z, printed ++ [SomeFailed; Rule]).

End Verify.

(** ** The generator's entry point: [main] of [generate_presentations.py] *)

Module Generator.

(** The lines printed by [main] and by the two renderers it calls. *)
Inductive message :=
  | ParsingReadme
  | FoundSections (n : nat)
  | GeneratingPowerPoint
  | PowerPointSaved (file : pystr)
  | GeneratingPdf
  | PdfSaved (file : pystr)
  | Generated (pptx pdf : pystr).

Definition pptx_output : pystr := str "Data-Access-Layer-Presentation.pptx".
Definition pdf_output : pystr := str "Data-Access-Layer-Presentation.pdf".

(** What a run leaves: the lines printed, the deck saved under
    [pptx_output] and the document built into [pdf_output], each [None]
    when the run raised before writing it. *)
Record outputs := mk_outputs {
  printed : list message;
  deck : option (list Slides.slide);
  story : option (list Pdf.flowable)
}.

(** [main], from the text of [README.md]: both renderers get the same
    list of sections; nothing catches what a renderer raises, so the run
    ends at the first one that does. *)
Definition main (parses : pystr -> bool) (readme : pystr) : outputs :=
  let sections := parse_markdown readme in
  let started :=
    [ParsingReadme; FoundSections (length sections); GeneratingPowerPoint] in
  match Slides.create_powerpoint sections with
  | Raises => mk_outputs started None None
  | Returns slides =>
      let rendered := started ++ [PowerPointSaved pptx_output; GeneratingPdf] in
      match Pdf.create_pdf parses sections with
      | Raises => mk_outputs rendered (Some slides) None
      | Returns flow =>
          mk_outputs
            (rendered ++ [PdfSaved pdf_output;
                          Generated pptx_output pdf_output])
            (Some slides) (Some flow)
      end
  end.

End Generator.

(** ** Vocabulary of the properties *)

Module Spec.

Definition fence : pystr := str "```".

(** Number of level-1 records of a parse. *)
Definition level1_count (secs : list section_rec) : nat :=
  length (filter (fun s => (level s =? 1)%Z) secs).

(** Number of lines of the text that start with [## ]. *)
Definition main_header_count (text : pystr) : nat :=
  length (filter (startswith (str "## ")) (split nl text)).

(** A [## ] line whose title, once stripped, is not empty. *)
Definition titled_header (line : pystr) : bool :=
  startswith (str "## ") line && nonempty (strip (skipn 3 line)).

(** Number of [### ] lines met while content is pending: at least one
    content line ([#### ], bullet or text) since the last [## ] or [### ]
    line. *)
Fixpoint sub_flushes (pending : bool) (lines : list pystr) : nat :=
  match lines with
  | [] => 0
  | line :: rest =>
      match classify line with
      | MainHeader => sub_flushes false rest
      | SubHeader => (if pending then 1 else 0) + sub_flushes false rest
      | Skipped => sub_flushes pending rest
      | _ => sub_flushes true rest
      end
  end.

(** The lines of a fenced block that starts at [ls], and the lines left
    after its closing fence. *)
Fixpoint fenced (ls : list pystr) : list pystr * list pystr :=
  match ls with
  | [] => ([], [])
  | l :: ls' =>
      if startswith fence l then ([], ls')
      else let (code, rest) := fenced ls' in (l :: code, rest)
  end.

(** The last step of [parse_markdown]. *)
Definition finish (st : pstate) : list section_rec :=
  if truthy (current_section st)
  then sections st ++ [flushed st] else sections st.

(** The six-line document of the round-trip scenario. *)
Definition scenario : pystr :=
  join [nl] [str "## Intro"; str "Some text"; str "### Sub";
             str "More text"; str "## Next"; str "Final"].

(** A record is well-formed when it is a level-1 record or a level-2
    record without content. *)
Definition body_only_at_level1 (s : section_rec) : Prop :=
  (level s = 2%Z -> content s = []) /\ (content s <> [] -> level s = 1%Z).

(** HTML escaping of one character: [&], [<], [>] and the others. *)
Definition escape_char (c : char) : pystr :=
  if (c =? 38)%N then str "&amp;"
  else if (c =? 60)%N then str "&lt;"
  else if (c =? 62)%N then str "&gt;"
  else [c].

(** What the escaping around a code region makes of one character: the
    ampersand of [&lt;] and [&gt;] is escaped again. *)
Definition escape_char_twice (c : char) : pystr :=
  if (c =? 38)%N then str "&amp;"
  else if (c =? 60)%N then str "&amp;lt;"
  else if (c =? 62)%N then str "&amp;gt;"
  else [c].

(** A plain text line: the parser takes it as regular text, it holds no
    newline and no [[CODE]] tag. *)
Definition plain_text_line (l : pystr) : Prop :=
  classify l = Text /\ ~ In nl l /\ contains CodeRe.open_tag l = false.

(** [f] applied to the first, to the last element of a list. *)
Definition map_first {A} (f : A -> A) (l : list A) : list A :=
  match l with
  | [] => []
  | a :: l' => f a :: l'
  end.

Fixpoint map_last {A} (f : A -> A) (l : list A) : list A :=
  match l with
  | [] => []
  | [a] => [f a]
  | a :: l' => a :: map_last f l'
  end.

(** The twelve text lines "line a" ... "line l". *)
Definition twelve_lines : list pystr :=
  [str "line a"; str "line b"; str "line c"; str "line d"; str "line e";
   str "line f"; str "line g"; str "line h"; str "line i"; str "line j";
   str "line k"; str "line l"].

(** Number of level-2 records of a parse. *)
Definition level2_count (secs : list section_rec) : nat :=
  length (filter (fun s => (level s =? 2)%Z) secs).

(** The shape of a record: a level-1 dict without ['parent'] key, or a
    level-2 dict with a string as title, empty content and a ['parent']
    key. *)
Definition well_shaped (s : section_rec) : Prop :=
  (level s = 1%Z /\ parent s = None)
  \/ (level s = 2%Z /\ content s = [] /\ title s <> None
      /\ parent s <> None).

(** Titles, contents and parents carry no whitespace at their ends. *)
Definition stripped_opt (t : option pystr) : Prop :=
  forall x, t = Some x -> strip x = x.

Definition well_stripped (s : section_rec) : Prop :=
  strip (content s) = content s
  /\ stripped_opt (title s)
  /\ (forall p, parent s = Some p -> stripped_opt p).

(** A line with neither header marker. *)
Definition no_header (l : pystr) : Prop :=
  startswith (str "## ") l = false /\ startswith (str "### ") l = false.

(** A line the parser drops: blank, or starting with [---]. *)
Definition dropped_line (l : pystr) : Prop :=
  nonempty (strip l) = false \/ startswith (str "---") l = true.

(** A line of a section's body that only adds to the content: text or
    bullet. *)
Definition body_line (l : pystr) : Prop :=
  classify l = Text \/ classify l = Bullet.

(** A line that changes neither the records nor the running title. *)
Definition quiet_line (l : pystr) : Prop :=
  classify l <> MainHeader /\ classify l <> SubHeader /\ classify l <> Fence.

(** The stripped title of the last [## ] line, [None] without one. *)
Definition last_main_title (lines : list pystr) : option pystr :=
  fold_left (fun acc l =>
               if startswith (str "## ") l then Some (strip (skipn 3 l))
               else acc)
            lines None.

(** Number of paragraphs of a given style in a story. *)
Definition styled (st : Pdf.style) (f : Pdf.flowable) : bool :=
  match f, st with
  | Pdf.Paragraph _ Pdf.TitleStyle, Pdf.TitleStyle
  | Pdf.Paragraph _ Pdf.NormalStyle, Pdf.NormalStyle
  | Pdf.Paragraph _ Pdf.HeadingStyle, Pdf.HeadingStyle
  | Pdf.Paragraph _ Pdf.SubHeadingStyle, Pdf.SubHeadingStyle
  | Pdf.Paragraph _ Pdf.BodyStyle, Pdf.BodyStyle
  | Pdf.Paragraph _ Pdf.CodeStyle, Pdf.CodeStyle => true
  | _, _ => false
  end.

Definition style_count (st : Pdf.style) (story : list Pdf.flowable) : nat :=
  length (filter (styled st) story).

(** Fenced blocks by position: a fence line opens a block outside one
    and closes it inside one. *)
Definition toggle (in_block : bool) (l : pystr) : bool :=
  xorb in_block (startswith fence l).

(** The lines before a position leave it outside every fenced block:
    each block opened before it is closed before it. *)
Definition outside_blocks (pre : list pystr) : Prop :=
  fold_left toggle pre false = false.

(** The lines that the outer loop of the parser meets: all but the lines
    of the fenced blocks and the fences that close them.  [in_block]
    tells whether the first line lies in a block. *)
Fixpoint met (in_block : bool) (lines : list pystr) : list pystr :=
  match lines with
  | [] => []
  | l :: rest =>
      if in_block then met (toggle in_block l) rest
      else l :: met (toggle in_block l) rest
  end.

(** A heading is built from a title that is a string without [<] and
    [&], or one that the parser of the library takes. *)
Definition heading_builds (parses : pystr -> bool) (s : section_rec) : Prop :=
  exists text, title s = Some text
               /\ (Pdf.markup_free text = true \/ parses text = true).

(** Text in which [<] does not occur and [&] only begins one of
    [&amp;], [&lt;] and [&gt;]: character data that a markup parser takes
    as it is. *)
Inductive escaped_text : pystr -> Prop :=
  | escaped_nil : escaped_text []
  | escaped_char (c : char) (t : pystr) :
      c <> 60%N -> c <> 38%N -> escaped_text t -> escaped_text (c :: t)
  | escaped_amp (t : pystr) : escaped_text t -> escaped_text (str "&amp;" ++ t)
  | escaped_lt (t : pystr) : escaped_text t -> escaped_text (str "&lt;" ++ t)
  | escaped_gt (t : pystr) : escaped_text t -> escaped_text (str "&gt;" ++ t).

End Spec.
Import Spec.

(** ** Strings: basic facts *)

Section StringFacts.

Lemma startswith_app (p t : pystr) : startswith p (p ++ t) = true.
Proof.
  induction p as [|a p IH]; simpl; [reflexivity|].
  now rewrite N.eqb_refl.
Qed.

Lemma startswith_inv (p s : pystr) :
  startswith p s = true -> s = p ++ skipn (length p) s.
Proof.
  revert s; induction p as [|a p IH]; intros [|b s]; simpl; try easy.
  rewrite andb_true_iff, N.eqb_eq. intros [-> H].
  f_equal. now apply IH.
Qed.

Lemma split_no_sep (sep : char) (l : pystr) :
  ~ In sep l -> split sep l = [l].
Proof.
  induction l as [|c l IH]; intros Hn; [reflexivity|].
  cbn [split]. destruct (N.eqb_spec c sep) as [->|_].
  - exfalso. apply Hn. now left.
  - rewrite IH; [reflexivity|]. intros K. apply Hn. now right.
Qed.

Lemma split_app_sep (sep : char) (l t : pystr) :
  ~ In sep l -> split sep (l ++ sep :: t) = l :: split sep t.
Proof.
  induction l as [|c l IH]; intros Hn; cbn [app split].
  - now rewrite N.eqb_refl.
  - destruct (N.eqb_spec c sep) as [->|_].
    + exfalso. apply Hn. now left.
    + rewrite IH; [reflexivity|]. intros K. apply Hn. now right.
Qed.

(** Splitting what was joined gives the parts back, when no part holds
    the separator. *)
Lemma split_join (sep : char) (parts : list pystr) :
  parts <> [] -> Forall (fun l => ~ In sep l) parts ->
  split sep (join [sep] parts) = parts.
Proof.
  intros Hne H. revert Hne.
  induction H as [|l ls Hl Hls IH]; intros Hne; [now elim Hne|].
  destruct ls as [|l2 ls].
  - cbn [join]. now apply split_no_sep.
  - change (join [sep] (l :: l2 :: ls))
      with (l ++ sep :: join [sep] (l2 :: ls)).
    rewrite split_app_sep by assumption. f_equal. apply IH. discriminate.
Qed.

Lemma find_unfold (pat s : pystr) :
  find pat s =
  if startswith pat s then Some 0
  else match s with
       | [] => None
       | _ :: s' => option_map S (find pat s')
       end.
Proof. now destruct s. Qed.

(** An occurrence is found, at or before the given one. *)
Lemma find_app (pat a b : pystr) :
  exists i, find pat (a ++ pat ++ b) = Some i /\ i <= length a.
Proof.
  induction a as [|c a [i [E Hi]]].
  - exists 0. cbn [app]. rewrite find_unfold, startswith_app. now split.
  - rewrite find_unfold. cbn [app length].
    destruct (startswith pat (c :: a ++ pat ++ b)).
    + exists 0. split; [reflexivity|lia].
    + exists (S i). rewrite E. split; [reflexivity|lia].
Qed.

(** What is found is an occurrence. *)
Lemma find_Some (pat s : pystr) (i : nat) :
  find pat s = Some i ->
  s = firstn i s ++ pat ++ skipn (i + length pat) s /\ i <= length s.
Proof.
  revert i. induction s as [|c s IH]; intros i; rewrite find_unfold.
  - destruct (startswith pat []) eqn:Hp; [|discriminate].
    intros [= <-]. split; [|cbn; lia]. exact (startswith_inv _ _ Hp).
  - destruct (startswith pat (c :: s)) eqn:Hp.
    + intros [= <-]. split; [|cbn; lia]. exact (startswith_inv _ _ Hp).
    + destruct (find pat s) as [k|]; [|discriminate].
      intros [= <-]. destruct (IH k eq_refl) as [E Hk].
      split; [|cbn; lia]. cbn [firstn Nat.add skipn app]. now rewrite <- E.
Qed.

Lemma contains_app (pat a b : pystr) : contains pat (a ++ pat ++ b) = true.
Proof.
  unfold contains. now destruct (find_app pat a b) as [i [-> _]].
Qed.

(** [lstrip] removes a run of whitespace and stops at a character that
    is not whitespace. *)
Lemma lstrip_spec (s : pystr) :
  exists ws, s = ws ++ lstrip s /\ forallb isspace ws = true.
Proof.
  induction s as [|c s [ws [E H]]].
  - now exists [].
  - cbn [lstrip]. destruct (isspace c) eqn:Hc.
    + exists (c :: ws). cbn [app forallb]. rewrite Hc, H. now rewrite <- E.
    + now exists [].
Qed.

Lemma lstrip_head (s : pystr) (c : char) (t : pystr) :
  lstrip s = c :: t -> isspace c = false.
Proof.
  induction s as [|a s IH]; [discriminate|].
  cbn [lstrip]. destruct (isspace a) eqn:Ha; [exact IH|].
  now intros [= <- _].
Qed.

Lemma rstrip_spec (s : pystr) :
  exists ws, s = rstrip s ++ ws /\ forallb isspace ws = true.
Proof.
  unfold rstrip. destruct (lstrip_spec (rev s)) as [ws [E H]].
  exists (rev ws). split.
  - rewrite <- rev_app_distr, <- E. now rewrite rev_involutive.
  - rewrite forallb_forall in *. intros x Hx. apply H. now apply in_rev.
Qed.

(** A stripped string does not begin with whitespace. *)
Lemma strip_head (s : pystr) (c : char) (t : pystr) :
  strip s = c :: t -> isspace c = false.
Proof.
  unfold strip. intros E.
  destruct (rstrip_spec (lstrip s)) as [ws [E' _]].
  rewrite E in E'. cbn [app] in E'. exact (lstrip_head _ E').
Qed.

Lemma lstrip_ws (ws s : pystr) :
  forallb isspace ws = true -> lstrip (ws ++ s) = lstrip s.
Proof.
  induction ws as [|w ws IH]; [reflexivity|].
  cbn [forallb app lstrip]. rewrite andb_true_iff. intros [-> H]. now apply IH.
Qed.

Lemma lstrip_app (l x : pystr) :
  nonempty (lstrip l) = true -> lstrip (l ++ x) = lstrip l ++ x.
Proof.
  induction l as [|c l IH]; [discriminate|].
  cbn [lstrip app]. destruct (isspace c); [exact IH|reflexivity].
Qed.

Lemma lstrip_all_ws (s : pystr) :
  lstrip s = [] -> forallb isspace s = true.
Proof.
  induction s as [|c s IH]; [reflexivity|].
  cbn [lstrip forallb]. destruct (isspace c); [exact IH|discriminate].
Qed.

Lemma nonempty_rev (s : pystr) : nonempty (rev s) = nonempty s.
Proof.
  destruct s as [|c s]; [reflexivity|]. cbn [rev nonempty].
  now destruct (rev s).
Qed.

Lemma forallb_rev (f : char -> bool) (s : pystr) :
  forallb f (rev s) = forallb f s.
Proof.
  induction s as [|c s IH]; [reflexivity|].
  cbn [rev]. rewrite forallb_app, IH. cbn. now rewrite andb_true_r, andb_comm.
Qed.

Lemma rstrip_ws (s ws : pystr) :
  forallb isspace ws = true -> rstrip (s ++ ws) = rstrip s.
Proof.
  intros H. unfold rstrip. rewrite rev_app_distr, lstrip_ws; [reflexivity|].
  now rewrite forallb_rev.
Qed.

Lemma rstrip_app (x l : pystr) :
  nonempty (rstrip l) = true -> rstrip (x ++ l) = x ++ rstrip l.
Proof.
  unfold rstrip. rewrite nonempty_rev. intros H.
  now rewrite rev_app_distr, lstrip_app, rev_app_distr, rev_involutive.
Qed.

(** Whitespace around a string does not change what [strip] gives. *)
Lemma strip_ws (ws1 x ws2 : pystr) :
  forallb isspace ws1 = true -> forallb isspace ws2 = true ->
  strip (ws1 ++ x ++ ws2) = strip x.
Proof.
  intros H1 H2. unfold strip. rewrite lstrip_ws by exact H1.
  destruct (lstrip x) as [|c t] eqn:E.
  - assert (Hx : forallb isspace (x ++ ws2) = true).
    { rewrite forallb_app, H2, (lstrip_all_ws _ E). reflexivity. }
    destruct (lstrip_spec (x ++ ws2)) as [ws [Ews _]].
    destruct (lstrip (x ++ ws2)) as [|c t] eqn:E'; [reflexivity|].
    pose proof (lstrip_head _ E') as Hc.
    rewrite forallb_forall in Hx. rewrite (Hx c) in Hc; [discriminate|].
    rewrite Ews. apply in_or_app. right. now left.
  - rewrite lstrip_app by now rewrite E. rewrite E. now apply rstrip_ws.
Qed.

Lemma strip_spec (s : pystr) :
  exists ws1 ws2,
    s = ws1 ++ strip s ++ ws2
    /\ forallb isspace ws1 = true /\ forallb isspace ws2 = true.
Proof.
  destruct (lstrip_spec s) as [ws1 [E1 H1]].
  destruct (rstrip_spec (lstrip s)) as [ws2 [E2 H2]].
  exists ws1, ws2. unfold strip. now rewrite <- E2.
Qed.

Lemma nonblank_lstrip (l : pystr) :
  nonempty (strip l) = true -> nonempty (lstrip l) = true.
Proof. unfold strip. now destruct (lstrip l). Qed.

Lemma nonblank_rstrip (l : pystr) :
  nonempty (strip l) = true -> nonempty (rstrip l) = true.
Proof.
  intros H. destruct (lstrip_spec l) as [ws [E _]].
  rewrite E, rstrip_app by exact H. fold (strip l).
  destruct (strip l); [discriminate|]. now destruct ws.
Qed.

(** [replace] one step at a time. *)
Lemma replace_from_skipn (old new : pystr) (k : nat) (s : pystr) :
  replace_from old new k s = replace old new (skipn k s).
Proof.
  unfold replace. revert k. induction s as [|c s IH]; intros [|k];
    try reflexivity.
  cbn [replace_from skipn]. apply IH.
Qed.

Lemma replace_cons (a : char) (old new : pystr) (c : char) (s : pystr) :
  replace (a :: old) new (c :: s) =
  if startswith (a :: old) (c :: s)
  then new ++ replace (a :: old) new (skipn (length (a :: old)) (c :: s))
  else c :: replace (a :: old) new s.
Proof.
  unfold replace at 1. cbn [replace_from].
  rewrite replace_from_skipn. cbn [length Nat.sub skipn].
  now rewrite Nat.sub_0_r.
Qed.

Lemma startswith_length (p s : pystr) :
  startswith p s = true -> length p <= length s.
Proof.
  intros H. apply startswith_inv in H. rewrite H, length_app. lia.
Qed.

Lemma startswith_app_ws (old x ws : pystr) :
  forallb (fun c => negb (isspace c)) old = true ->
  forallb isspace ws = true ->
  startswith old (x ++ ws) = startswith old x.
Proof.
  intros Ho Hw. revert x Ho. induction old as [|a old IH]; intros x Ho;
    [reflexivity|].
  cbn [forallb] in Ho. apply andb_true_iff in Ho. destruct Ho as [Ha Ho].
  destruct x as [|b x].
  - cbn [app]. destruct ws as [|w ws]; [reflexivity|].
    cbn [startswith forallb] in *. apply andb_true_iff in Hw.
    destruct Hw as [Hw _].
    destruct (N.eqb_spec a w) as [->|]; [|reflexivity].
    rewrite Hw in Ha. discriminate.
  - cbn [app startswith]. now rewrite IH.
Qed.

Lemma replace_ws_left (a : char) (old new ws x : pystr) :
  isspace a = false -> forallb isspace ws = true ->
  replace (a :: old) new (ws ++ x) = ws ++ replace (a :: old) new x.
Proof.
  intros Ha. induction ws as [|w ws IH]; [reflexivity|].
  cbn [forallb app]. rewrite andb_true_iff. intros [Hw H].
  rewrite replace_cons. cbn [startswith].
  destruct (N.eqb_spec a w) as [->|_]; [congruence|].
  cbn [andb]. now rewrite IH.
Qed.

Lemma replace_ws_right (a : char) (old new x ws : pystr) :
  forallb (fun c => negb (isspace c)) (a :: old) = true ->
  forallb isspace ws = true ->
  replace (a :: old) new (x ++ ws) = replace (a :: old) new x ++ ws.
Proof.
  intros Ho Hw.
  remember (length x) as n eqn:Hn.
  assert (Hle : length x <= n) by lia. clear Hn. revert x Hle.
  induction n as [|n IH]; intros [|c x] Hle; cbn [length] in Hle; try lia.
  - cbn [app]. rewrite <- (app_nil_r ws) at 1.
    rewrite replace_ws_left; [now rewrite app_nil_r| |exact Hw].
    cbn [forallb] in Ho. apply andb_true_iff in Ho.
    now destruct Ho as [Ho _]; destruct (isspace a).
  - cbn [app]. rewrite <- (app_nil_r ws) at 1.
    rewrite replace_ws_left; [now rewrite app_nil_r| |exact Hw].
    cbn [forallb] in Ho. apply andb_true_iff in Ho.
    now destruct Ho as [Ho _]; destruct (isspace a).
  - rewrite <- app_comm_cons, !replace_cons, app_comm_cons.
    rewrite (@startswith_app_ws _ _ _ Ho Hw).
    destruct (startswith (a :: old) (c :: x)) eqn:Hs.
    + pose proof (@startswith_length _ _ Hs) as Hlen.
      rewrite skipn_app.
      replace (length (a :: old) - length (c :: x)) with 0 by lia.
      cbn [skipn length] in *. rewrite IH.
      * now rewrite app_assoc.
      * rewrite length_skipn. lia.
    + rewrite <- app_comm_cons. f_equal. apply IH. lia.
Qed.

(** Occurrences of a pattern and the pieces of a string. *)
Lemma contains_cons (pat : pystr) (c : char) (s : pystr) :
  contains pat (c :: s) = startswith pat (c :: s) || contains pat s.
Proof.
  unfold contains. rewrite find_unfold.
  destruct (startswith pat (c :: s)); [reflexivity|].
  now destruct (find pat s).
Qed.

Lemma contains_inside (pat a m b : pystr) :
  contains pat m = true -> contains pat (a ++ m ++ b) = true.
Proof.
  unfold contains at 1. destruct (find pat m) as [i|] eqn:E; [|discriminate].
  intros _. destruct (find_Some _ _ E) as [Em _].
  rewrite Em.
  replace (a ++ (firstn i m ++ pat ++ skipn (i + length pat) m) ++ b)
    with ((a ++ firstn i m) ++ pat ++ (skipn (i + length pat) m ++ b))
    by now rewrite <- !app_assoc.
  apply contains_app.
Qed.

Lemma startswith_app_other (p x : pystr) (sep : char) (y : pystr) :
  ~ In sep p -> startswith p x = false ->
  startswith p (x ++ sep :: y) = false.
Proof.
  revert x. induction p as [|a p IH]; intros x Hn; [discriminate|].
  destruct x as [|b x]; cbn [app startswith].
  - intros _. destruct (N.eqb_spec a sep) as [->|]; [|reflexivity].
    exfalso. apply Hn. now left.
  - destruct (a =? b)%N; [|reflexivity]. cbn [andb].
    apply IH. intros K. apply Hn. now right.
Qed.

Lemma contains_app_sep (pat a : pystr) (sep : char) (b : pystr) :
  pat <> [] -> ~ In sep pat -> contains pat a = false ->
  contains pat (a ++ sep :: b) = contains pat b.
Proof.
  intros Hne Hn. induction a as [|c a IH]; intros Ha.
  - cbn [app]. rewrite contains_cons.
    destruct pat as [|p0 pat]; [now elim Hne|]. cbn [startswith].
    destruct (N.eqb_spec p0 sep) as [->|]; [|reflexivity].
    exfalso. apply Hn. now left.
  - rewrite contains_cons in Ha. apply orb_false_iff in Ha.
    destruct Ha as [Hs Ha]. rewrite <- app_comm_cons, contains_cons.
    rewrite app_comm_cons, (@startswith_app_other _ _ _ _ Hn Hs).
    now apply IH.
Qed.

Lemma contains_join (pat : pystr) (sep : char) (parts : list pystr) :
  pat <> [] -> ~ In sep pat ->
  Forall (fun l => contains pat l = false) parts ->
  contains pat (join [sep] parts) = false.
Proof.
  intros Hne Hn H. induction H as [|l ls Hl _ IH].
  - destruct pat; [now elim Hne|reflexivity].
  - destruct ls as [|l2 ls]; [exact Hl|].
    change (join [sep] (l :: l2 :: ls))
      with (l ++ sep :: join [sep] (l2 :: ls)).
    now rewrite contains_app_sep.
Qed.

(** [strip] of joined lines that are not blank trims the first line on
    the left and the last one on the right. *)
Lemma lstrip_join (sep : pystr) (parts : list pystr) :
  Forall (fun l => nonempty (lstrip l) = true) parts ->
  lstrip (join sep parts) = join sep (map_first lstrip parts).
Proof.
  intros [|l ls Hl _]; [reflexivity|].
  destruct ls as [|l2 ls]; [reflexivity|].
  change (join sep (l :: l2 :: ls)) with (l ++ sep ++ join sep (l2 :: ls)).
  now rewrite lstrip_app.
Qed.

Lemma map_last_nil {A} (f : A -> A) (l : list A) :
  map_last f l = [] -> l = [].
Proof. destruct l as [|a [|b l]]; [reflexivity|discriminate|discriminate]. Qed.

Lemma join_cons (sep l : pystr) (rest : list pystr) :
  rest <> [] -> join sep (l :: rest) = l ++ sep ++ join sep rest.
Proof. destruct rest; [intros K; now elim K|reflexivity]. Qed.

Lemma rstrip_join (sep : pystr) (parts : list pystr) :
  parts <> [] ->
  Forall (fun l => nonempty (rstrip l) = true) parts ->
  rstrip (join sep parts) = join sep (map_last rstrip parts)
  /\ nonempty (rstrip (join sep parts)) = true.
Proof.
  intros Hne H. revert Hne.
  induction H as [|l ls Hl Hls IH]; intros Hne; [now elim Hne|].
  destruct ls as [|l2 ls]; [now split|].
  destruct IH as [IH1 IH2]; [discriminate|].
  change (join sep (l :: l2 :: ls)) with (l ++ sep ++ join sep (l2 :: ls)).
  rewrite app_assoc, rstrip_app by exact IH2.
  rewrite IH1 in *. split.
  - change (map_last rstrip (l :: l2 :: ls))
      with (l :: map_last rstrip (l2 :: ls)).
    rewrite join_cons, <- app_assoc; [reflexivity|].
    intros K. apply map_last_nil in K. discriminate.
  - destruct (join sep (map_last rstrip (l2 :: ls))); [discriminate|].
    now destruct (l ++ sep).
Qed.

Lemma map_map_first {A B} (f : A -> A) (g : A -> B) (l : list A) :
  (forall a, g (f a) = g a) -> map g (map_first f l) = map g l.
Proof. intros H. destruct l; [reflexivity|]. cbn. now rewrite H. Qed.

Lemma map_map_last {A B} (f : A -> A) (g : A -> B) (l : list A) :
  (forall a, g (f a) = g a) -> map g (map_last f l) = map g l.
Proof.
  intros H. induction l as [|a l IH]; [reflexivity|].
  destruct l as [|b l]; [cbn; now rewrite H|].
  change (map_last f (a :: b :: l)) with (a :: map_last f (b :: l)).
  cbn [map] in *. now rewrite IH.
Qed.

Lemma Forall_map_first {A} (P : A -> Prop) (f : A -> A) (l : list A) :
  (forall a, P a -> P (f a)) -> Forall P l -> Forall P (map_first f l).
Proof. intros H [|a l' Ha Hl]; constructor; auto. Qed.

Lemma Forall_map_last {A} (P : A -> Prop) (f : A -> A) (l : list A) :
  (forall a, P a -> P (f a)) -> Forall P l -> Forall P (map_last f l).
Proof.
  intros H. induction 1 as [|a l' Ha Hl IH]; [constructor|].
  destruct l' as [|b l']; [repeat constructor; auto|].
  change (map_last f (a :: b :: l')) with (a :: map_last f (b :: l')).
  constructor; auto.
Qed.

Lemma filter_all {A} (f : A -> bool) (l : list A) :
  Forall (fun a => f a = true) l -> filter f l = l.
Proof.
  induction 1 as [|a l Ha _ IH]; [reflexivity|].
  cbn [filter]. now rewrite Ha, IH.
Qed.

End StringFacts.

(** ** The parser: structure of the loop *)

Section ParserFacts.

Lemma parse_loop_fence (line : pystr) (rest : list pystr) (st : pstate) :
  classify line = Fence ->
  parse_loop (line :: rest) st
  = parse_loop (snd (fenced rest)) (on_fence (fst (fenced rest)) st).
Proof.
  intros Hk. cbn [parse_loop]. rewrite Hk.
  change [] with (@nil pystr) at 1.
  enough (G : forall ls acc,
    (fix code_loop (ls code_lines : list pystr) {struct ls} : pstate :=
       match ls with
       | [] => on_fence code_lines st
       | l :: ls' =>
           if startswith (str "```") l
           then parse_loop ls' (on_fence code_lines st)
           else code_loop ls' (code_lines ++ [l])
       end) ls acc
    = parse_loop (snd (fenced ls)) (on_fence (acc ++ fst (fenced ls)) st)).
  { apply (G rest []). }
  induction ls as [|l ls IH]; intros acc.
  - cbn. now rewrite app_nil_r.
  - cbn [fenced]. change (startswith fence l) with (startswith (str "```") l).
    destruct (startswith (str "```") l).
    + cbn. now rewrite app_nil_r.
    + rewrite IH. destruct (fenced ls) as [code r]. cbn.
      now rewrite <- app_assoc.
Qed.

Lemma fenced_length (ls : list pystr) :
  length (snd (fenced ls)) <= length ls.
Proof.
  induction ls as [|l ls IH]; cbn [fenced]; [cbn; lia|].
  destruct (startswith fence l); [cbn; lia|].
  destruct (fenced ls); cbn [snd length] in *; lia.
Qed.

Lemma parse_loop_step (line : pystr) (rest : list pystr) (st : pstate) :
  parse_loop (line :: rest) st =
  match classify line with
  | MainHeader => parse_loop rest (on_main line st)
  | SubHeader => parse_loop rest (on_sub line st)
  | SubSubHeader => parse_loop rest (on_subsub line st)
  | Fence => parse_loop (snd (fenced rest)) (on_fence (fst (fenced rest)) st)
  | Bullet | Text => parse_loop rest (push line st)
  | Skipped => parse_loop rest st
  end.
Proof.
  destruct (classify line) eqn:Hk;
    try (cbn [parse_loop]; rewrite Hk; reflexivity).
  now apply parse_loop_fence.
Qed.

(** A property of the state kept by every branch holds when the loop
    ends. *)
Lemma parse_loop_invariant (P : pstate -> Prop) :
  (forall l st, P st -> P (on_main l st)) ->
  (forall l st, P st -> P (on_sub l st)) ->
  (forall x st, P st -> P (push x st)) ->
  forall lines st, P st -> P (parse_loop lines st).
Proof.
  intros Hmain Hsub Hpush lines.
  remember (length lines) as n eqn:Hn.
  assert (Hle : length lines <= n) by lia. clear Hn.
  revert lines Hle. induction n as [|n IH]; intros [|l rest] Hle st Hst;
    cbn in Hle; try lia; try exact Hst.
  rewrite parse_loop_step.
  pose proof (fenced_length rest) as Hf.
  destruct (classify l); apply IH; try lia; auto.
  - unfold on_subsub. auto.
  - unfold on_fence. auto.
Qed.

End ParserFacts.

(** ** The parser: properties *)

Section ParserClaims.

(** C2, as stated, fails: the parse of the six-line scenario is not the
    three records of the specification. *)
Lemma scenario_is_not_three_records :
  parse_markdown scenario <>
  [ mk_section (Some (str "Intro")) (str "Some text") 1 None;
    mk_section (Some (str "Sub")) [] 2 (Some (Some (str "Intro")));
    mk_section (Some (str "Next")) (join [nl] [str "More text"; str "Final"])
               1 None ].
Proof. vm_compute. discriminate. Qed.

(** C2 (amended): the parse of the six-line scenario has four records;
    the text after the sub-header is flushed by the next [## ] line under
    the still open title "Intro", and "Next" holds only "Final". *)
Theorem scenario_parse :
  parse_markdown scenario =
  [ mk_section (Some (str "Intro")) (str "Some text") 1 None;
    mk_section (Some (str "Sub")) [] 2 (Some (Some (str "Intro")));
    mk_section (Some (str "Intro")) (str "More text") 1 None;
    mk_section (Some (str "Next")) (str "Final") 1 None ].
Proof. vm_compute. reflexivity. Qed.

(** C1, as stated, fails on the scenario: three level-1 records for two
    [## ] lines. *)
Lemma level1_count_scenario :
  level1_count (parse_markdown scenario) = 3
  /\ main_header_count scenario = 2
  /\ level1_count (parse_markdown scenario) <> main_header_count scenario.
Proof. vm_compute. repeat split; discriminate. Qed.

(** C1: two more inputs on which the count is not the number of [## ]
    lines: a [## ] line inside a fenced block is code, and a [## ] line
    with a blank title opens a section that is never written out. *)
Lemma level1_count_other_inputs :
  level1_count
    (parse_markdown (join [nl] [str "```"; str "## x"; str "```"])) = 0
  /\ main_header_count (join [nl] [str "```"; str "## x"; str "```"]) = 1
  /\ level1_count (parse_markdown (join [nl] [str "##  "; str "x"])) = 0
  /\ main_header_count (join [nl] [str "##  "; str "x"]) = 1.
Proof. repeat split; vm_compute; reflexivity. Qed.

Lemma level1_count_app (a b : list section_rec) :
  level1_count (a ++ b) = level1_count a + level1_count b.
Proof. unfold level1_count. now rewrite filter_app, length_app. Qed.

Lemma classify_main (l : pystr) :
  classify l = MainHeader <-> startswith (str "## ") l = true.
Proof.
  unfold classify. destruct (startswith (str "## ") l); [easy|].
  split; [|discriminate].
  repeat match goal with
         | |- context [if ?b then _ else _] => destruct b
         end; discriminate.
Qed.

Lemma classify_fence_free (l : pystr) :
  startswith fence l = false -> classify l <> Fence.
Proof.
  unfold classify. change (str "```") with fence. intros ->.
  repeat match goal with
         | |- context [if ?b then _ else _] => destruct b
         end; discriminate.
Qed.

Lemma classify_fence (l : pystr) :
  startswith fence l = true -> classify l = Fence.
Proof.
  intros H. unfold classify. change (str "```") with fence.
  apply startswith_inv in H. rewrite H. reflexivity.
Qed.

Lemma met_fenced (r : list pystr) : met true r = met false (snd (fenced r)).
Proof.
  induction r as [|x r IH]; [reflexivity|].
  cbn [met fenced]. unfold toggle. cbn [xorb].
  destruct (startswith fence x); cbn [negb]; [reflexivity|].
  rewrite IH. now destruct (fenced r).
Qed.

Lemma met_cons (l : pystr) (r : list pystr) :
  met false (l :: r)
  = l :: (if startswith fence l then met false (snd (fenced r))
          else met false r).
Proof.
  cbn [met]. unfold toggle. cbn [xorb].
  destruct (startswith fence l); [now rewrite met_fenced|reflexivity].
Qed.

Lemma met_In (b : bool) (lines : list pystr) (l : pystr) :
  In l (met b lines) -> In l lines.
Proof.
  revert b. induction lines as [|x r IH]; intros b; [intros []|].
  cbn [met]. destruct b.
  - intros H. right. exact (IH _ H).
  - intros [<-|H]; [now left|]. right. exact (IH _ H).
Qed.

Lemma level1_count_loop (n : nat) (lines : list pystr) :
  length lines <= n ->
  forall st,
    level1_count (finish (parse_loop lines st))
    = level1_count (sections st)
      + (if truthy (current_section st) then 1 else 0)
      + length (filter titled_header (met false lines))
      + sub_flushes (has_items (current_content st)) (met false lines).
Proof.
  revert lines. induction n as [|n IH]; intros [|l rest] Hle st;
    cbn [length] in Hle; try lia.
  - cbn [parse_loop met filter sub_flushes length]. unfold finish.
    destruct (truthy (current_section st));
      rewrite ?level1_count_app; cbn; lia.
  - cbn [parse_loop met filter sub_flushes length]. unfold finish.
    destruct (truthy (current_section st));
      rewrite ?level1_count_app; cbn; lia.
  - rewrite parse_loop_step, met_cons. cbn [filter sub_flushes].
    unfold titled_header at 1.
    pose proof (fenced_length rest) as Hf.
    pose proof (classify_main l) as Hm.
    destruct (startswith fence l) eqn:Hfence.
    + rewrite (classify_fence l Hfence), IH by lia.
      apply startswith_inv in Hfence.
      assert (Hs : startswith (str "## ") l = false)
        by (rewrite Hfence; reflexivity).
      rewrite Hs. cbn [andb].
      unfold on_fence, push. cbn [sections current_section current_content].
      destruct (current_content st); cbn [app has_items]; lia.
    + pose proof (classify_fence_free l Hfence) as Hnf.
      destruct (startswith (str "## ") l) eqn:Hs.
      * rewrite (proj2 Hm eq_refl), IH by lia. cbn [andb].
        cbn [on_main sections current_section current_content truthy
             has_items].
        destruct (truthy (current_section st)),
                 (nonempty (strip (skipn 3 l)));
          rewrite ?level1_count_app; cbn; lia.
      * cbn [andb].
        destruct (classify l) eqn:Hk; try congruence;
          try (now destruct Hm as [Hm _]; specialize (Hm eq_refl));
          rewrite IH by lia;
          unfold on_sub, on_subsub, push;
          destruct (current_content st);
          cbn [sections current_section current_content has_items];
          rewrite ?level1_count_app; cbn; lia.
Qed.

Lemma sub_flushes_without_sub (pending : bool) (lines : list pystr) :
  Forall (fun l => startswith (str "### ") l = false) lines ->
  sub_flushes pending lines = 0.
Proof.
  intros H. revert pending.
  induction H as [|l ls Hn _ IH]; intros pending; [reflexivity|].
  cbn [sub_flushes].
  assert (Hk : classify l <> SubHeader).
  { unfold classify. rewrite Hn.
    repeat match goal with
           | |- context [if ?b then _ else _] => destruct b
           end; discriminate. }
  destruct (classify l); try apply IH. now destruct Hk.
Qed.

(** C1 (amended): for every text, the number of level-1 records is the
    number of [## ] lines outside fenced blocks with a non-blank title
    plus the number of [### ] lines outside fenced blocks met while
    content is pending; it is the number of [## ] lines of the text when
    none of them lies in a fenced block or has a blank title and no
    [### ] line lies outside the fenced blocks. *)
Theorem level1_count_formula (text : pystr) :
  level1_count (parse_markdown text)
  = length (filter titled_header (met false (split nl text)))
    + sub_flushes false (met false (split nl text))
  /\ (filter (startswith (str "## ")) (met false (split nl text))
      = filter (startswith (str "## ")) (split nl text) ->
      Forall (fun l => startswith (str "## ") l = true ->
                       nonempty (strip (skipn 3 l)) = true) (split nl text) ->
      Forall (fun l => startswith (str "### ") l = false)
             (met false (split nl text)) ->
      level1_count (parse_markdown text) = main_header_count text).
Proof.
  assert (E : level1_count (parse_markdown text)
              = length (filter titled_header (met false (split nl text)))
                + sub_flushes false (met false (split nl text))).
  { change (parse_markdown text)
      with (finish (parse_loop (split nl text) initial)).
    rewrite (@level1_count_loop (length (split nl text))) by lia.
    change (level1_count (sections initial)) with 0.
    change (truthy (current_section initial)) with false.
    change (has_items (current_content initial)) with false.
    cbv iota. lia. }
  split; [exact E|].
  intros Hmet Htitled Hnosub. rewrite E. unfold main_header_count.
  rewrite (sub_flushes_without_sub false Hnosub), Nat.add_0_r.
  rewrite <- Hmet. f_equal. apply filter_ext_in. intros l Hl.
  unfold titled_header. apply met_In in Hl.
  rewrite Forall_forall in Htitled. specialize (Htitled l Hl).
  destruct (startswith (str "## ") l); [|reflexivity].
  now rewrite Htitled.
Qed.

(** C3: every record of a parse is a level-1 record or a level-2 record
    with empty content; content is only ever flushed into level-1
    records. *)
Theorem level2_content_empty (text : pystr) :
  Forall body_only_at_level1 (parse_markdown text).
Proof.
  assert (Hflush : forall st, body_only_at_level1 (flushed st)).
  { intros st. split; cbn; [discriminate|reflexivity]. }
  assert (H : Forall body_only_at_level1
                (sections (parse_loop (split nl text) initial))).
  { apply parse_loop_invariant
      with (P := fun st => Forall body_only_at_level1 (sections st)).
    - intros l st Hst. cbn [on_main sections].
      destruct (truthy (current_section st)); [|exact Hst].
      apply Forall_app. split; [exact Hst|]. constructor; [apply Hflush|constructor].
    - intros l st Hst. unfold on_sub.
      assert (Hsub : body_only_at_level1
                       (mk_section (Some (strip (skipn 4 l))) [] 2
                                   (Some (current_section st)))).
      { split; cbn; [reflexivity|congruence]. }
      destruct (has_items (current_content st)); cbn [sections];
        repeat (apply Forall_app; split); try exact Hst;
        repeat constructor; try apply Hflush; apply Hsub.
    - intros x st Hst. exact Hst.
    - constructor. }
  unfold parse_markdown. cbv zeta.
  destruct (truthy _); [|exact H].
  apply Forall_app. split; [exact H|]. constructor; [apply Hflush|constructor].
Qed.

Lemma parse_loop_app (pre rest : list pystr) (st : pstate) :
  Forall (fun l => startswith fence l = false) pre ->
  parse_loop (pre ++ rest) st = parse_loop rest (parse_loop pre st).
Proof.
  intros H. revert st. induction H as [|l pre Hl _ IH]; intros st;
    [reflexivity|].
  rewrite <- app_comm_cons, !parse_loop_step.
  pose proof (classify_fence_free l Hl).
  destruct (classify l); try apply IH. congruence.
Qed.

Lemma sections_grow (lines : list pystr) (st : pstate) :
  exists more, finish (parse_loop lines st) = sections st ++ more.
Proof.
  assert (H : exists more,
             sections (parse_loop lines st) = sections st ++ more).
  { apply parse_loop_invariant
      with (P := fun st' => exists more, sections st' = sections st ++ more).
    - intros l st' [more E]. cbn [on_main sections]. rewrite E.
      destruct (truthy (current_section st'));
        [rewrite <- app_assoc|]; eauto.
    - intros l st' [more E]. unfold on_sub.
      destruct (has_items (current_content st')); cbn [sections];
        rewrite E, <- app_assoc; eauto.
    - intros x st' [more E]. cbn [push sections]. eauto.
    - exists []. now rewrite app_nil_r. }
  destruct H as [more E]. unfold finish. rewrite E.
  destruct (truthy _); [rewrite <- app_assoc|]; eauto.
Qed.

Lemma sub_is_not_main (l : pystr) :
  startswith (str "### ") l = true -> startswith (str "## ") l = false.
Proof.
  intros H. apply startswith_inv in H. rewrite H. reflexivity.
Qed.

Lemma fenced_block (block closing rest : list pystr) :
  Forall (fun l => startswith fence l = false) block ->
  (closing = [] /\ rest = []
   \/ exists c, closing = [c] /\ startswith fence c = true) ->
  fenced (block ++ closing ++ rest) = (block, rest).
Proof.
  intros Hb Hc. induction Hb as [|l block Hl _ IH].
  - destruct Hc as [[-> ->]|[c [-> Hc]]]; [reflexivity|].
    cbn [app fenced]. now rewrite Hc.
  - cbn [app fenced]. now rewrite Hl, IH.
Qed.

Lemma close_block (r : list pystr) :
  fold_left toggle r true = false ->
  exists block c r',
    r = block ++ c :: r'
    /\ Forall (fun l => startswith fence l = false) block
    /\ startswith fence c = true
    /\ outside_blocks r'.
Proof.
  induction r as [|x r IH]; [discriminate|].
  cbn [fold_left]. unfold toggle at 2. cbn [xorb].
  destruct (startswith fence x) eqn:Hx; cbn [negb]; intros H.
  - exists [], x, r. repeat split; [constructor|exact Hx|exact H].
  - destruct (IH H) as (block & c & r' & -> & Hb & Hc & Hr).
    exists (x :: block), c, r'. repeat split; try assumption.
    now constructor.
Qed.

(** Induction on the lines before a position outside every fenced
    block: line by line outside the blocks, and block by block. *)
Lemma outside_blocks_ind (P : list pystr -> Prop) :
  P [] ->
  (forall l r, startswith fence l = false -> outside_blocks r -> P r ->
               P (l :: r)) ->
  (forall l block c r,
      startswith fence l = true ->
      Forall (fun x => startswith fence x = false) block ->
      startswith fence c = true -> outside_blocks r -> P r ->
      P (l :: block ++ c :: r)) ->
  forall pre, outside_blocks pre -> P pre.
Proof.
  intros Hnil Hline Hblock pre.
  remember (length pre) as n eqn:Hn.
  assert (Hle : length pre <= n) by lia. clear Hn.
  revert pre Hle. induction n as [|n IH]; intros [|l r] Hle Hout;
    cbn [length] in Hle; try lia; try exact Hnil.
  unfold outside_blocks in Hout. cbn [fold_left] in Hout.
  unfold toggle at 2 in Hout. cbn [xorb] in Hout.
  destruct (startswith fence l) eqn:Hl.
  - destruct (close_block r Hout) as (block & c & r' & -> & Hb & Hc & Hr).
    apply Hblock; try assumption. apply IH; [|exact Hr].
    rewrite length_app in Hle. cbn [length] in Hle. lia.
  - apply Hline; try assumption. apply IH; [lia|exact Hout].
Qed.

Lemma parse_loop_block (l : pystr) (block : list pystr) (c : pystr)
    (rest : list pystr) (st : pstate) :
  startswith fence l = true ->
  Forall (fun x => startswith fence x = false) block ->
  startswith fence c = true ->
  parse_loop (l :: block ++ c :: rest) st
  = parse_loop rest (on_fence block st).
Proof.
  intros Hl Hb Hc. rewrite parse_loop_step, (classify_fence l Hl).
  assert (E : fenced (block ++ c :: rest) = (block, rest)).
  { apply (@fenced_block block [c] rest Hb). right. now exists c. }
  now rewrite E.
Qed.

Lemma met_block (l : pystr) (block : list pystr) (c : pystr)
    (rest : list pystr) :
  startswith fence l = true ->
  Forall (fun x => startswith fence x = false) block ->
  startswith fence c = true ->
  met false (l :: block ++ c :: rest) = l :: met false rest.
Proof.
  intros Hl Hb Hc. rewrite met_cons, Hl.
  assert (E : fenced (block ++ c :: rest) = (block, rest)).
  { apply (@fenced_block block [c] rest Hb). right. now exists c. }
  now rewrite E.
Qed.

(** The loop on a text is the loop on its beginning, then on the rest,
    when the rest begins outside every fenced block. *)
Lemma parse_loop_app_outside (pre rest : list pystr) :
  outside_blocks pre ->
  forall st, parse_loop (pre ++ rest) st = parse_loop rest (parse_loop pre st).
Proof.
  intros H. induction H as [|l r Hl _ IH|l block c r Hl Hb Hc _ IH]
    using outside_blocks_ind; intros st.
  - reflexivity.
  - rewrite <- app_comm_cons, !parse_loop_step.
    pose proof (classify_fence_free l Hl).
    destruct (classify l); try apply IH. congruence.
  - rewrite <- app_comm_cons, <- app_assoc, <- app_comm_cons.
    rewrite !parse_loop_block by assumption. apply IH.
Qed.

Lemma current_section_kept_outside (pre : list pystr) :
  outside_blocks pre ->
  Forall (fun l => startswith (str "## ") l = false) (met false pre) ->
  forall st, current_section (parse_loop pre st) = current_section st.
Proof.
  intros H. induction H as [|l r Hl _ IH|l block c r Hl Hb Hc _ IH]
    using outside_blocks_ind; intros Hmet st.
  - reflexivity.
  - rewrite met_cons, Hl in Hmet.
    inversion Hmet as [|? ? Hm Hrest]; subst.
    rewrite parse_loop_step.
    pose proof (classify_fence_free l Hl) as Hnf.
    pose proof (classify_main l) as Hmain.
    destruct (classify l); rewrite ?(IH Hrest); try reflexivity;
      try congruence.
    + destruct Hmain as [Hmain _]. specialize (Hmain eq_refl). congruence.
    + unfold on_sub. now destruct (has_items (current_content st)).
  - rewrite met_block in Hmet by assumption.
    inversion Hmet as [|? ? _ Hrest]; subst.
    rewrite parse_loop_block by assumption. now rewrite (IH Hrest).
Qed.

(** C10: a [### ] line that the parser meets (outside every fenced
    block) before it has met any [## ] line is accepted like any other:
    the title is still [None] there, content pending at that point is
    flushed as a level-1 record with title [None], and the level-2 record
    of the sub-header follows with parent [None]. *)
Theorem sub_header_before_main (text : pystr) (pre : list pystr)
    (line : pystr) (post : list pystr) :
  split nl text = pre ++ line :: post ->
  outside_blocks pre ->
  Forall (fun l => startswith (str "## ") l = false) (met false pre) ->
  startswith (str "### ") line = true ->
  let st := parse_loop pre initial in
  current_section st = None
  /\ exists later,
       parse_markdown text
       = sections st
         ++ (if has_items (current_content st)
             then [mk_section None (strip (join [nl] (current_content st)))
                              1 None]
             else [])
         ++ [mk_section (Some (strip (skipn 4 line))) [] 2 (Some None)]
         ++ later.
Proof.
  intros Hsplit Hout Hpre Hsub st.
  assert (Hnone : current_section st = None).
  { unfold st. now rewrite current_section_kept_outside. }
  split; [exact Hnone|].
  change (parse_markdown text)
    with (finish (parse_loop (split nl text) initial)).
  rewrite Hsplit, parse_loop_app_outside by exact Hout.
  fold st. rewrite parse_loop_step.
  assert (Hk : classify line = SubHeader).
  { unfold classify. now rewrite (sub_is_not_main line Hsub), Hsub. }
  rewrite Hk.
  destruct (sections_grow post (on_sub line st)) as [more E].
  rewrite E. unfold on_sub, flushed. rewrite Hnone.
  destruct (has_items (current_content st)); cbn [sections];
    exists more; now rewrite <- !app_assoc.
Qed.

Example sub_header_before_main_witness :
  exists later,
    parse_markdown
      (join [nl] [str "```"; str "## in code"; str "```"; str "words";
                  str "### Sub"; str "## Main"])
    = [mk_section None
         (strip (join [nl] [code_region [str "## in code"]; str "words"]))
         1 None;
       mk_section (Some (str "Sub")) [] 2 (Some None)] ++ later.
Proof.
  destruct (@sub_header_before_main
              (join [nl] [str "```"; str "## in code"; str "```";
                          str "words"; str "### Sub"; str "## Main"])
              [str "```"; str "## in code"; str "```"; str "words"]
              (str "### Sub") [str "## Main"])
    as [_ [later E]].
  - reflexivity.
  - reflexivity.
  - repeat constructor.
  - reflexivity.
  - exists later. exact E.
Defined.



End ParserClaims.

(** ** The verifier *)

Section VerifierClaims.

Import Verify.

Lemma verify_powerpoint_true (fs : files) :
  fst (verify_powerpoint fs) = true <->
  deck_exists fs = true
  /\ exists n size,
       deck_slides fs = Returns n /\ deck_size fs = Returns size /\ 10 <= n.
Proof.
  unfold verify_powerpoint.
  destruct (deck_exists fs), (deck_slides fs) as [n|], (deck_size fs) as [sz|];
    cbn [negb fst]; try (split; [discriminate|]);
    try (intros [? (? & ? & ? & ? & ?)]; discriminate).
  destruct (Nat.ltb_spec n 10) as [Hlt|Hge]; cbn [fst]; split.
  - discriminate.
  - intros [_ (n' & sz' & E & _ & Hn)]. injection E as <-. lia.
  - intros _. split; [reflexivity|]. now exists n, sz.
  - reflexivity.
Qed.

Lemma verify_pdf_true (fs : files) :
  fst (verify_pdf fs) = true <->
  pdf_exists fs = true
  /\ exists size bytes,
       pdf_size fs = Returns size /\ pdf_bytes fs = Returns bytes
       /\ firstn 5 bytes = pdf_magic.
Proof.
  unfold verify_pdf, bytes_eqb.
  destruct (pdf_exists fs), (pdf_size fs) as [sz|], (pdf_bytes fs) as [b|];
    cbn [negb fst]; try (split; [discriminate|]);
    try (intros [? (? & ? & ? & ? & ?)]; discriminate).
  destruct (list_eq_dec N.eq_dec (firstn 5 b) pdf_magic) as [E|NE];
    cbn [negb fst]; split.
  - intros _. split; [reflexivity|]. now exists sz, b.
  - reflexivity.
  - discriminate.
  - intros [_ (sz' & b' & _ & Eb & Hm)]. injection Eb as <-. contradiction.
Qed.

Lemma verify_documentation_true (fs : files) :
  fst (verify_documentation fs) = true <->
  doc_exists fs = true
  /\ exists content,
       doc_text fs = Returns content
       /\ forall s, In s required_sections -> contains s content = true.
Proof.
  unfold verify_documentation.
  destruct (doc_exists fs), (doc_text fs) as [c|];
    cbn [negb fst]; try (split; [discriminate|]);
    try (intros [? (? & ? & ?)]; discriminate).
  destruct (filter _ required_sections) as [|m ms] eqn:Hf; cbn [has_items fst];
    split.
  - intros _. split; [reflexivity|]. exists c. split; [reflexivity|].
    intros s Hs. destruct (contains s c) eqn:Hc; [reflexivity|].
    assert (K : In s (filter (fun s => negb (contains s c)) required_sections)).
    { apply filter_In. split; [exact Hs|]. now rewrite Hc. }
    rewrite Hf in K. destruct K.
  - reflexivity.
  - discriminate.
  - intros [_ (c' & Ec & Hall)]. injection Ec as <-.
    assert (K : In m (filter (fun s => negb (contains s c)) required_sections)).
    { rewrite Hf. now left. }
    apply filter_In in K. destruct K as [Hm Hc].
    rewrite (Hall m Hm) in Hc. discriminate.
Qed.

(** C9: the exit code is 0 exactly when the three checks all return
    true, and 1 otherwise; it is 1 when the slide deck is absent or has
    fewer than 10 slides, when the first five bytes of the PDF are not
    [%PDF-], and when a required substring is missing from the
    documentation; the three checks all run and report, whatever the
    earlier ones gave. *)
Theorem verifier_exit_code (fs : files) :
  (fst (main fs) = 0%Z <->
     fst (verify_powerpoint fs) = true
     /\ fst (verify_pdf fs) = true
     /\ fst (verify_documentation fs) = true)
  /\ (fst (main fs) <> 0%Z -> fst (main fs) = 1%Z)
  /\ (deck_exists fs = false -> fst (main fs) = 1%Z)
  /\ (forall n, deck_slides fs = Returns n -> n < 10 -> fst (main fs) = 1%Z)
  /\ (forall bytes, pdf_bytes fs = Returns bytes ->
                    firstn 5 bytes <> pdf_magic -> fst (main fs) = 1%Z)
  /\ (forall content s, doc_text fs = Returns content ->
                        In s required_sections ->
                        contains s content = false -> fst (main fs) = 1%Z)
  /\ exists verdict,
       snd (main fs)
       = [Rule; Heading; Rule; EmptyLine]
         ++ snd (verify_powerpoint fs) ++ [EmptyLine]
         ++ snd (verify_pdf fs) ++ [EmptyLine]
         ++ snd (verify_documentation fs) ++ [EmptyLine; Rule]
         ++ [verdict; Rule].
Proof.
  pose proof (verify_powerpoint_true fs) as Hd.
  pose proof (verify_pdf_true fs) as Hp.
  pose proof (verify_documentation_true fs) as Hdoc.
  assert (Hcode : fst (main fs)
                  = if fst (verify_powerpoint fs) && fst (verify_pdf fs)
                       && fst (verify_documentation fs)
                    then 0%Z else 1%Z).
  { unfold main.
    destruct (verify_powerpoint fs) as [[] ?], (verify_pdf fs) as [[] ?],
             (verify_documentation fs) as [[] ?]; reflexivity. }
  assert (Hfail : forall b1 b2 b3 : bool,
             b1 = false \/ b2 = false \/ b3 = false ->
             (if b1 && b2 && b3 then 0%Z else 1%Z) = 1%Z).
  { intros [] [] []; intuition discriminate. }
  split; [|split; [|split; [|split; [|split; [|split]]]]].
  - rewrite Hcode.
    destruct (fst (verify_powerpoint fs)), (fst (verify_pdf fs)),
             (fst (verify_documentation fs)); cbn [andb];
      split; try discriminate; try tauto; intuition discriminate.
  - rewrite Hcode.
    destruct (_ && _); [intros K; now elim K|reflexivity].
  - intros Habsent. rewrite Hcode. apply Hfail. left.
    destruct (fst (verify_powerpoint fs)); [|reflexivity].
    destruct Hd as [Hd _]. destruct (Hd eq_refl) as [E _]. congruence.
  - intros n Hn Hlt. rewrite Hcode. apply Hfail. left.
    destruct (fst (verify_powerpoint fs)); [|reflexivity].
    destruct Hd as [Hd _].
    destruct (Hd eq_refl) as [_ (n' & sz & E & _ & Hge)].
    rewrite Hn in E. injection E as <-. lia.
  - intros bytes Hb Hne. rewrite Hcode. apply Hfail. right. left.
    destruct (fst (verify_pdf fs)); [|reflexivity].
    destruct Hp as [Hp _].
    destruct (Hp eq_refl) as [_ (sz & b & _ & E & Hm)].
    rewrite Hb in E. injection E as <-. contradiction.
  - intros content s Hc Hs Hmiss. rewrite Hcode. apply Hfail. right. right.
    destruct (fst (verify_documentation fs)); [|reflexivity].
    destruct Hdoc as [Hdoc _].
    destruct (Hdoc eq_refl) as [_ (c & E & Hall)].
    rewrite Hc in E. injection E as <-.
    rewrite (Hall s Hs) in Hmiss. discriminate.
  - unfold main.
    destruct (verify_powerpoint fs) as [r1 o1], (verify_pdf fs) as [r2 o2],
             (verify_documentation fs) as [r3 o3].
    destruct (all [r1; r2; r3]); cbn [snd];
      [exists AllPassed|exists SomeFailed];
      now rewrite <- !app_assoc.
Qed.

End VerifierClaims.

(** ** The slide renderer *)

Section SlideClaims.

Import Slides CodeRe.


Lemma create_powerpoint_one (s : section_rec) (t : pystr) :
  level s = 1%Z -> title s = Some t ->
  create_powerpoint [s]
  = Returns [title_slide; ContentSlide t (slide_body (content s))].
Proof.
  intros Hl Ht. unfold create_powerpoint. cbn [content_slides].
  now rewrite Hl, Ht.
Qed.




(** The second branch of the bullet test is never taken: the cleaned
    line is stripped, so it cannot begin with two spaces. *)
Lemma line_paragraph_level (line : pystr) :
  p_level (line_paragraph line) = Some 0%Z
  \/ p_level (line_paragraph line) = None.
Proof.
  unfold line_paragraph.
  destruct (startswith (str "- ") (clean_line line)
            || startswith (str "* ") (clean_line line)); [now left|].
  assert (H : forall p, startswith (32%N :: p) (clean_line line) = false).
  { intros p. destruct (clean_line line) as [|c t] eqn:E; [reflexivity|].
    unfold clean_line in E. apply strip_head in E. cbn [startswith].
    destruct (N.eqb_spec 32 c) as [<-|]; [discriminate|reflexivity]. }
  change (str "  - ") with (32%N :: str " - ").
  change (str "  * ") with (32%N :: str " * ").
  rewrite !H. now right.
Qed.

(** C5 fails on an indented bullet: the line "  - nested" of a parsed
    section comes out at outline level 0 with the text "nested", like the
    line "- top" before it, and not at level 1. *)
Theorem indented_bullet_at_level0 :
  create_powerpoint
    (parse_markdown (join [nl] [str "## A"; str "- top"; str "  - nested"]))
  = Returns
      [title_slide;
       ContentSlide (str "A")
         (Some [blank;
                mk_paragraph (str "top") (Some 0%Z) (Some 14%Z) None;
                mk_paragraph (str "nested") (Some 0%Z) (Some 14%Z) None])]
  /\ line_paragraph (str "  - nested")
     <> mk_paragraph (skipn 4 (str "  - nested")) (Some 1%Z) (Some 14%Z) None.
Proof. split; [vm_compute; reflexivity|vm_compute; discriminate]. Qed.

(** Whitespace around a line does not change its paragraph. *)
Lemma clean_line_ws (ws1 x ws2 : pystr) :
  forallb isspace ws1 = true -> forallb isspace ws2 = true ->
  clean_line (ws1 ++ x ++ ws2) = clean_line x.
Proof.
  intros H1 H2. unfold clean_line.
  assert (E : forall (a : char) (old y : pystr),
             forallb (fun c => negb (isspace c)) (a :: old) = true ->
             replace (a :: old) [] (ws1 ++ y ++ ws2)
             = ws1 ++ replace (a :: old) [] y ++ ws2).
  { intros a old y Ha.
    rewrite replace_ws_left, replace_ws_right; try assumption; try reflexivity.
    cbn [forallb] in Ha. apply andb_true_iff in Ha.
    now destruct Ha as [Ha _]; destruct (isspace a). }
  assert (E1 : replace (str "**") [] (ws1 ++ x ++ ws2)
               = ws1 ++ replace (str "**") [] x ++ ws2)
    by exact (E 42%N [42%N] x eq_refl).
  assert (E2 : replace (str "`") [] (ws1 ++ replace (str "**") [] x ++ ws2)
               = ws1 ++ replace (str "`") [] (replace (str "**") [] x) ++ ws2)
    by exact (E 96%N [] (replace (str "**") [] x) eq_refl).
  rewrite E1, E2.
  now apply strip_ws.
Qed.

Lemma clean_line_lstrip (l : pystr) : clean_line (lstrip l) = clean_line l.
Proof.
  destruct (lstrip_spec l) as [ws [E H]]. rewrite E at 2.
  rewrite <- (app_nil_r (lstrip l)) at 2. now rewrite clean_line_ws.
Qed.

Lemma clean_line_rstrip (l : pystr) : clean_line (rstrip l) = clean_line l.
Proof.
  destruct (rstrip_spec l) as [ws [E H]]. rewrite E at 2.
  change (rstrip l ++ ws) with ([] ++ rstrip l ++ ws).
  now rewrite clean_line_ws.
Qed.

Lemma line_paragraph_lstrip (l : pystr) :
  line_paragraph (lstrip l) = line_paragraph l.
Proof. unfold line_paragraph. now rewrite clean_line_lstrip. Qed.

Lemma line_paragraph_rstrip (l : pystr) :
  line_paragraph (rstrip l) = line_paragraph l.
Proof. unfold line_paragraph. now rewrite clean_line_rstrip. Qed.

Lemma strip_lstrip (l : pystr) : strip (lstrip l) = strip l.
Proof.
  destruct (lstrip_spec l) as [ws [E H]]. rewrite E at 2.
  rewrite <- (app_nil_r (lstrip l)) at 2. now rewrite strip_ws.
Qed.

Lemma strip_rstrip (l : pystr) : strip (rstrip l) = strip l.
Proof.
  destruct (rstrip_spec l) as [ws [E H]]. rewrite E at 2.
  change (rstrip l ++ ws) with ([] ++ rstrip l ++ ws).
  now rewrite strip_ws.
Qed.

Lemma in_lstrip (c : char) (l : pystr) : In c (lstrip l) -> In c l.
Proof.
  destruct (lstrip_spec l) as [ws [E _]]. intros H. rewrite E.
  apply in_or_app. now right.
Qed.

Lemma in_rstrip (c : char) (l : pystr) : In c (rstrip l) -> In c l.
Proof.
  destruct (rstrip_spec l) as [ws [E _]]. intros H. rewrite E.
  apply in_or_app. now left.
Qed.

(** The non-blank lines of the stripped join of non-blank lines: the
    lines, the first trimmed on the left and the last on the right. *)
Lemma nonblank_lines_strip_join (ls : list pystr) :
  ls <> [] ->
  Forall (fun l => nonempty (strip l) = true) ls ->
  Forall (fun l => ~ In nl l) ls ->
  nonblank_lines (strip (join [nl] ls))
  = map_last rstrip (map_first lstrip ls).
Proof.
  intros Hne Hnb Hnl.
  assert (Hne' : map_first lstrip ls <> []) by now destruct ls.
  assert (Hnb' : Forall (fun l => nonempty (strip l) = true)
                        (map_first lstrip ls)).
  { apply Forall_map_first; [|exact Hnb]. intros l. now rewrite strip_lstrip. }
  unfold strip at 1. rewrite lstrip_join
    by (eapply Forall_impl; [|exact Hnb]; apply nonblank_lstrip).
  destruct (@rstrip_join [nl] (map_first lstrip ls) Hne') as [E _].
  { eapply Forall_impl; [|exact Hnb']. apply nonblank_rstrip. }
  rewrite E. unfold nonblank_lines. rewrite split_join.
  - apply filter_all. apply Forall_map_last; [|exact Hnb'].
    intros l. now rewrite strip_rstrip.
  - intros K. apply map_last_nil in K. contradiction.
  - apply Forall_map_last; [intros l Hl K; apply Hl; now apply in_rstrip|].
    apply Forall_map_first; [intros l Hl K; apply Hl; now apply in_lstrip|].
    exact Hnl.
Qed.

Lemma classify_text_nonblank (l : pystr) :
  classify l = Text -> nonempty (strip l) = true.
Proof.
  unfold classify.
  repeat match goal with
         | |- context [if ?b then _ else _] => destruct b eqn:?
         end; try discriminate.
  intros _.
  match goal with H : _ && _ = true |- _ => apply andb_true_iff in H; apply H end.
Qed.

Lemma parse_loop_text (ls : list pystr) (st : pstate) :
  Forall (fun l => classify l = Text) ls ->
  parse_loop ls st
  = mk_pstate (sections st) (current_section st) (current_content st ++ ls).
Proof.
  intros H. revert st. induction H as [|l ls Hl _ IH]; intros st.
  - cbn [parse_loop]. rewrite app_nil_r. now destruct st.
  - rewrite parse_loop_step, Hl, IH. cbn [push sections current_section
      current_content]. now rewrite <- app_assoc.
Qed.

(** The parse of a [## A] header followed by plain text lines: one
    level-1 record with the joined lines as content. *)
Lemma parse_header_and_text (ls : list pystr) :
  Forall plain_text_line ls ->
  parse_markdown (join [nl] (str "## A" :: ls))
  = [mk_section (Some (str "A")) (strip (join [nl] ls)) 1 None].
Proof.
  intros H. unfold parse_markdown. rewrite split_join.
  - rewrite parse_loop_step. change (classify (str "## A")) with MainHeader.
    rewrite parse_loop_text
      by (eapply Forall_impl; [|exact H]; now intros l [Hl _]).
    reflexivity.
  - discriminate.
  - constructor.
    + intros [K|[K|[K|[K|[]]]]]; discriminate.
    + eapply Forall_impl; [|exact H]. now intros l (_ & Hl & _).
Qed.

(** The slide of a level-1 section without [[CODE]] in its content. *)
Lemma plain_slide (s : section_rec) (t : pystr) :
  level s = 1%Z -> title s = Some t ->
  contains (str "[CODE]") (content s) = false ->
  create_powerpoint [s]
  = Returns
      [title_slide;
       ContentSlide t
         (Some (blank
                :: map line_paragraph
                     (firstn 10 (nonblank_lines (content s)))))].
Proof.
  intros Hl Ht Hc. rewrite (create_powerpoint_one s Hl Ht).
  unfold slide_body. now rewrite Hc.
Qed.

Lemma header_and_text_slides (ls : list pystr) :
  Forall plain_text_line ls ->
  create_powerpoint (parse_markdown (join [nl] (str "## A" :: ls)))
  = Returns
      [title_slide;
       ContentSlide (str "A")
         (Some (blank :: map line_paragraph (firstn 10 ls)))].
Proof.
  intros H. rewrite (parse_header_and_text H).
  rewrite (@plain_slide _ (str "A")); [|reflexivity|reflexivity|].
  - cbn [title content]. do 5 f_equal.
    destruct ls as [|l0 ls0] eqn:Els; [reflexivity|]. rewrite <- Els in *.
    rewrite nonblank_lines_strip_join.
    + rewrite <- !firstn_map. f_equal.
      rewrite map_map_last by apply line_paragraph_rstrip.
      now rewrite map_map_first by apply line_paragraph_lstrip.
    + rewrite Els. discriminate.
    + eapply Forall_impl; [|exact H].
      intros l [Hl _]. now apply classify_text_nonblank.
    + eapply Forall_impl; [|exact H]. now intros l (_ & Hl & _).
  - cbn [content]. change (str "[CODE]") with open_tag.
    destruct (contains open_tag (strip (join [nl] ls))) eqn:Hc; [|reflexivity].
    destruct (strip_spec (join [nl] ls)) as (ws1 & ws2 & E & _).
    apply (@contains_inside open_tag ws1 _ ws2) in Hc. rewrite <- E in Hc.
    rewrite contains_join in Hc; [discriminate|discriminate| |].
    + intros [K|[K|[K|[K|[K|[K|[]]]]]]]; discriminate.
    + eapply Forall_impl; [|exact H]. now intros l (_ & _ & Hl).
Qed.

(** C8 fails on the code: with twelve text lines after [## A] the body
    of the one content slide has eleven paragraphs, not ten; the first is
    the empty paragraph that [tf.clear()] leaves, which the loop never
    uses. *)
Lemma twelve_lines_body_length :
  exists body,
    create_powerpoint (parse_markdown (join [nl] (str "## A" :: twelve_lines)))
    = Returns [title_slide; ContentSlide (str "A") (Some (blank :: body))]
    /\ length (blank :: body) = 11 /\ length (blank :: body) <> 10.
Proof.
  eexists. split; [vm_compute; reflexivity|]. split; [reflexivity|discriminate].
Qed.

(** C8, what the code does: for [## A] followed by twelve plain text
    lines the deck has, after the title slide, exactly one content slide;
    its body is the empty paragraph left by clearing the text frame
    followed by exactly ten paragraphs, those of the first ten lines in
    order, eleven in all.  In general the body of a titled section
    without [[CODE]] is that empty paragraph followed by the paragraphs
    of the first ten non-blank lines of the content. *)
Theorem twelve_lines_slide (ls : list pystr) :
  Forall plain_text_line ls -> length ls = 12 ->
  create_powerpoint (parse_markdown (join [nl] (str "## A" :: ls)))
  = Returns
      [title_slide;
       ContentSlide (str "A")
         (Some (blank :: map line_paragraph (firstn 10 ls)))]
  /\ length (map line_paragraph (firstn 10 ls)) = 10
  /\ length (blank :: map line_paragraph (firstn 10 ls)) = 11
  /\ (forall s t, level s = 1%Z -> title s = Some t ->
                  contains (str "[CODE]") (content s) = false ->
                  create_powerpoint [s]
                  = Returns
                      [title_slide;
                       ContentSlide t
                         (Some (blank
                                :: map line_paragraph
                                     (firstn 10
                                        (nonblank_lines (content s)))))]).
Proof.
  intros H Hlen.
  assert (L : length (map line_paragraph (firstn 10 ls)) = 10)
    by (rewrite length_map, length_firstn; lia).
  repeat split.
  - now apply header_and_text_slides.
  - exact L.
  - cbn [length]. now rewrite L.
  - apply plain_slide.
Qed.

Example twelve_lines_slide_witness :
  create_powerpoint (parse_markdown (join [nl] (str "## A" :: twelve_lines)))
  = Returns
      [title_slide;
       ContentSlide (str "A")
         (Some (blank :: map line_paragraph (firstn 10 twelve_lines)))].
Proof.
  refine (proj1 (@twelve_lines_slide twelve_lines _ eq_refl)).
  repeat constructor; try reflexivity;
    intros K; repeat (destruct K as [K|K]; [discriminate|]); exact K.
Defined.

End SlideClaims.

(** ** The document renderer *)

Section PdfClaims.

Import Pdf.

Lemma replace_char (o : char) (new s : pystr) :
  replace [o] new s = flat_map (fun c => if (c =? o)%N then new else [c]) s.
Proof.
  unfold replace. induction s as [|c s IH]; [reflexivity|].
  cbn [replace_from startswith flat_map length Nat.sub].
  rewrite andb_true_r, N.eqb_sym, IH. now destruct (c =? o)%N.
Qed.

Lemma flat_map_flat_map {A B C} (f : A -> list B) (g : B -> list C)
    (l : list A) :
  flat_map g (flat_map f l) = flat_map (fun a => flat_map g (f a)) l.
Proof.
  induction l as [|a l IH]; [reflexivity|].
  cbn [flat_map]. now rewrite flat_map_app, IH.
Qed.

(** Without a code region every character is escaped once. *)
Lemma escape_plain_chars (s : pystr) :
  escape_plain s = flat_map escape_char s.
Proof.
  unfold escape_plain.
  change (str "&") with [38%N]. change (str "<") with [60%N].
  change (str ">") with [62%N].
  rewrite !replace_char, !flat_map_flat_map.
  apply flat_map_ext. intros c. unfold escape_char.
  destruct (N.eqb_spec c 38) as [->|H38]; [reflexivity|].
  cbn [flat_map app].
  destruct (N.eqb_spec c 60) as [->|H60]; [reflexivity|].
  cbn [flat_map app].
  now destruct (c =? 62)%N.
Qed.

(** Around a code region the ampersand is escaped last, so the one of
    [&lt;] and [&gt;] is escaped a second time. *)
Lemma escape_around_code_chars (s : pystr) :
  escape_around_code s = flat_map escape_char_twice s.
Proof.
  unfold escape_around_code.
  change (str "&") with [38%N]. change (str "<") with [60%N].
  change (str ">") with [62%N].
  rewrite !replace_char, !flat_map_flat_map.
  apply flat_map_ext. intros c. unfold escape_char_twice.
  destruct (N.eqb_spec c 60) as [->|H60]; [reflexivity|].
  cbn [flat_map app].
  destruct (N.eqb_spec c 62) as [->|H62]; [reflexivity|].
  cbn [flat_map app].
  destruct (N.eqb_spec c 38) as [->|H38]; [reflexivity|].
  now rewrite app_nil_r.
Qed.

(** C4 fails in the code-sentinel path: in a section with a fenced
    block, the text line "a < b & c" is emitted as
    "a &amp;lt; b &amp; c"; the same line in a section without a fenced
    block is emitted as "a &lt; b &amp; c". *)
Theorem double_escape_around_code (parses : pystr -> bool) :
  create_pdf parses
    (parse_markdown
       (join [nl] [str "## T"; str "a < b & c"; str "```"; str "x"; str "```"]))
  = Returns
      (title_page
       ++ [Paragraph (str "T") HeadingStyle; Spacer 2;
           Paragraph (str "a &amp;lt; b &amp; c") BodyStyle;
           Preformatted (str "x") CodeStyle; Spacer 1;
           Spacer 3])
  /\ create_pdf parses
       (parse_markdown (join [nl] [str "## T"; str "a < b & c"]))
     = Returns
         (title_page
          ++ [Paragraph (str "T") HeadingStyle; Spacer 2;
              Paragraph (str "a &lt; b &amp; c") BodyStyle;
              Spacer 3])
  /\ escape_around_code (str "<") = str "&amp;lt;"
  /\ escape_plain (str "<") = str "&lt;".
Proof. repeat split; vm_compute; reflexivity. Qed.

End PdfClaims.

(** ** The parser: further properties *)

Section ParserMore.

Lemma fenced_Forall (Q : pystr -> Prop) (ls : list pystr) :
  Forall Q ls -> Forall Q (snd (fenced ls)).
Proof.
  induction 1 as [|l ls Hl Hls IH]; [constructor|].
  cbn [fenced]. destruct (startswith fence l); [exact Hls|].
  now destruct (fenced ls).
Qed.

(** An invariant kept by the branches that the given lines can take. *)
Lemma parse_loop_invariant_on (Q : pystr -> Prop) (P : pstate -> Prop) :
  (forall l st, Q l -> classify l = MainHeader -> P st -> P (on_main l st)) ->
  (forall l st, Q l -> classify l = SubHeader -> P st -> P (on_sub l st)) ->
  (forall x st, P st -> P (push x st)) ->
  forall lines st, Forall Q lines -> P st -> P (parse_loop lines st).
Proof.
  intros Hmain Hsub Hpush lines.
  remember (length lines) as n eqn:Hn.
  assert (Hle : length lines <= n) by lia. clear Hn.
  revert lines Hle. induction n as [|n IH]; intros [|l rest] Hle st HQ Hst;
    cbn in Hle; try lia; try exact Hst.
  inversion HQ as [|? ? Hl Hrest]; subst.
  rewrite parse_loop_step.
  pose proof (fenced_length rest) as Hf.
  pose proof (fenced_Forall Hrest) as Hq.
  destruct (classify l) eqn:Hk; apply IH; try lia; auto.
  - unfold on_subsub. auto.
  - unfold on_fence. auto.
Qed.

Lemma classify_sub (l : pystr) :
  classify l = SubHeader -> startswith (str "### ") l = true.
Proof.
  unfold classify. destruct (startswith (str "## ") l); [discriminate|].
  destruct (startswith (str "### ") l); [reflexivity|].
  repeat match goal with
         | |- context [if ?b then _ else _] => destruct b
         end; discriminate.
Qed.

Lemma parse_loop_without_headers (lines : list pystr) :
  Forall no_header lines ->
  sections (parse_loop lines initial) = []
  /\ current_section (parse_loop lines initial) = None.
Proof.
  intros H.
  apply (@parse_loop_invariant_on no_header
           (fun st => sections st = [] /\ current_section st = None));
    try assumption; try (now split).
  - intros l st [Hm _] Hk. apply classify_main in Hk. congruence.
  - intros l st [_ Hs] Hk. apply classify_sub in Hk. congruence.
Qed.

(** X1: a text in which no line starts with [## ] or [### ] gives no
    record at all, whatever else it holds; the empty text is one. *)
Theorem no_header_no_record (text : pystr) :
  Forall no_header (split nl text) -> parse_markdown text = [].
Proof.
  intros H. unfold parse_markdown. cbv zeta.
  destruct (parse_loop_without_headers H) as [E1 E2].
  now rewrite E2, E1.
Qed.

Example no_header_no_record_witness :
  parse_markdown
    (join [nl] [str "Just a paragraph"; str "- and a bullet";
                str "#### and a small title"])
  = [].
Proof.
  apply no_header_no_record. vm_compute. repeat constructor.
Defined.

Lemma strip_idempotent (s : pystr) : strip (strip s) = strip s.
Proof.
  destruct (strip_spec s) as (ws1 & ws2 & E & H1 & H2).
  rewrite E at 2. now rewrite strip_ws.
Qed.

(** X2: every record of a parse is a level-1 dict without ['parent'] key
    or a level-2 dict that has a string as title, empty content and a
    ['parent'] key. *)
Theorem records_well_shaped (text : pystr) :
  Forall well_shaped (parse_markdown text).
Proof.
  assert (Hflush : forall st, well_shaped (flushed st)) by (now left).
  assert (H : Forall well_shaped
                (sections (parse_loop (split nl text) initial))).
  { apply parse_loop_invariant
      with (P := fun st => Forall well_shaped (sections st)).
    - intros l st Hst. cbn [on_main sections].
      destruct (truthy (current_section st)); [|exact Hst].
      apply Forall_app. split; [exact Hst|].
      apply Forall_cons; [apply Hflush|apply Forall_nil].
    - intros l st Hst. unfold on_sub.
      assert (Hsub : well_shaped
                       (mk_section (Some (strip (skipn 4 l))) [] 2
                                   (Some (current_section st)))).
      { right. cbn. repeat split; discriminate. }
      destruct (has_items (current_content st)); cbn [sections app];
        apply Forall_app; (split; [exact Hst|]);
        repeat (apply Forall_cons; [apply Hflush || exact Hsub|]);
        apply Forall_nil.
    - intros x st Hst. exact Hst.
    - apply Forall_nil. }
  unfold parse_markdown. cbv zeta.
  destruct (truthy _); [|exact H].
  apply Forall_app. split; [exact H|].
  apply Forall_cons; [apply Hflush|apply Forall_nil].
Qed.

(** X3: in every record of a parse the content, the title and the parent
    have no whitespace at either end. *)
Theorem records_well_stripped (text : pystr) :
  Forall well_stripped (parse_markdown text).
Proof.
  set (inv := fun st => Forall well_stripped (sections st)
                        /\ stripped_opt (current_section st)).
  assert (Hflush : forall st, inv st -> well_stripped (flushed st)).
  { intros st [_ Hc]. repeat split; cbn.
    - apply strip_idempotent.
    - exact Hc.
    - discriminate. }
  assert (H : inv (parse_loop (split nl text) initial)).
  { apply parse_loop_invariant with (P := inv).
    - intros l st Hst. pose proof (Hflush st Hst) as Hf.
      destruct Hst as [Hs Hc]. split.
      + cbn [on_main sections].
        destruct (truthy (current_section st)); [|exact Hs].
        apply Forall_app. split; [exact Hs|].
        apply Forall_cons; [exact Hf|apply Forall_nil].
      + cbn. intros x [= <-]. apply strip_idempotent.
    - intros l st Hst. pose proof (Hflush st Hst) as Hf.
      destruct Hst as [Hs Hc].
      assert (Hsub : well_stripped
                       (mk_section (Some (strip (skipn 4 l))) [] 2
                                   (Some (current_section st)))).
      { repeat split; cbn.
        - intros x [= <-]. apply strip_idempotent.
        - now intros p [= <-]. }
      unfold on_sub.
      destruct (has_items (current_content st));
        cbn [sections current_section app];
        (split; [|exact Hc]);
        apply Forall_app; (split; [exact Hs|]);
        repeat (apply Forall_cons; [exact Hf || exact Hsub|]);
        apply Forall_nil.
    - intros x st Hst. exact Hst.
    - split; [constructor|discriminate]. }
  unfold parse_markdown. cbv zeta.
  destruct (truthy _); [|apply H].
  apply Forall_app. split; [apply H|]. constructor; [now apply Hflush|constructor].
Qed.

Lemma level2_count_app (a b : list section_rec) :
  level2_count (a ++ b) = level2_count a + level2_count b.
Proof. unfold level2_count. now rewrite filter_app, length_app. Qed.

Lemma sub_classified (l : pystr) :
  startswith (str "### ") l = true -> classify l = SubHeader.
Proof.
  intros H. unfold classify. now rewrite (sub_is_not_main l H), H.
Qed.

Lemma level2_count_loop (lines : list pystr) :
  Forall (fun l => startswith fence l = false) lines ->
  forall st,
    level2_count (finish (parse_loop lines st))
    = level2_count (sections st)
      + length (filter (startswith (str "### ")) lines).
Proof.
  induction 1 as [|l rest Hl _ IH]; intros st.
  - cbn [parse_loop filter length]. unfold finish.
    destruct (truthy (current_section st));
      rewrite ?level2_count_app; cbn; lia.
  - rewrite parse_loop_step. cbn [filter].
    pose proof (classify_fence_free l Hl) as Hnf.
    destruct (startswith (str "### ") l) eqn:Hs.
    + rewrite (sub_classified l Hs), IH. unfold on_sub.
      destruct (has_items (current_content st)); cbn [sections];
        rewrite !level2_count_app; cbn; lia.
    + destruct (classify l) eqn:Hk; try congruence;
        try (apply classify_sub in Hk; congruence);
        rewrite IH; try reflexivity.
      cbn [on_main sections].
      destruct (truthy (current_section st));
        rewrite ?level2_count_app; cbn; lia.
Qed.

(** X4: for a text without fence lines, the number of level-2 records is
    the number of lines that start with [### ]. *)
Theorem level2_count_fence_free (text : pystr) :
  Forall (fun l => startswith fence l = false) (split nl text) ->
  level2_count (parse_markdown text)
  = length (filter (startswith (str "### ")) (split nl text)).
Proof.
  intros H.
  change (parse_markdown text)
    with (finish (parse_loop (split nl text) initial)).
  now rewrite (level2_count_loop H).
Qed.

Example level2_count_fence_free_witness :
  level2_count (parse_markdown scenario)
  = length (filter (startswith (str "### ")) (split nl scenario)).
Proof.
  apply level2_count_fence_free. vm_compute. repeat constructor.
Defined.

Lemma startswith_ws_head (a : char) (p l : pystr) :
  isspace a = false -> forallb isspace l = true ->
  startswith (a :: p) l = false.
Proof.
  intros Ha. destruct l as [|w l]; [reflexivity|].
  cbn [forallb startswith]. rewrite andb_true_iff. intros [Hw _].
  destruct (N.eqb_spec a w) as [->|]; [congruence|reflexivity].
Qed.

Lemma blank_all_ws (l : pystr) :
  nonempty (strip l) = false -> forallb isspace l = true.
Proof.
  intros H. destruct (lstrip_spec l) as [ws [E Hws]].
  destruct (lstrip l) as [|c t] eqn:El.
  - rewrite E, app_nil_r. exact Hws.
  - exfalso. unfold strip in H. rewrite El in H.
    destruct (rstrip_spec (c :: t)) as [ws2 [E2 Hws2]].
    destruct (rstrip (c :: t)) as [|c' t']; [|discriminate].
    cbn [app] in E2. subst ws2. cbn [forallb] in Hws2.
    rewrite (lstrip_head _ El) in Hws2. discriminate.
Qed.

Lemma dropped_skipped (l : pystr) : dropped_line l -> classify l = Skipped.
Proof.
  intros [Hb|Hr].
  - pose proof (blank_all_ws l Hb) as Hws. unfold classify.
    change (str "## ") with (35%N :: str "# ").
    change (str "### ") with (35%N :: str "## ").
    change (str "#### ") with (35%N :: str "### ").
    change (str "```") with (96%N :: str "``").
    change (str "- ") with (45%N :: str " ").
    change (str "* ") with (42%N :: str " ").
    rewrite !startswith_ws_head by (reflexivity || exact Hws).
    now rewrite Hb.
  - unfold classify. rewrite Hr, andb_false_r.
    apply startswith_inv in Hr. rewrite Hr. reflexivity.
Qed.

(** X5: a blank line or a line starting with [---], outside a fenced
    block, leaves no trace: the parse is the same without it. *)
Theorem dropped_line_irrelevant (with_line without : pystr)
    (pre : list pystr) (l : pystr) (post : list pystr) :
  split nl with_line = pre ++ l :: post ->
  split nl without = pre ++ post ->
  Forall (fun x => startswith fence x = false) pre ->
  dropped_line l ->
  parse_markdown with_line = parse_markdown without.
Proof.
  intros E1 E2 Hpre Hl. unfold parse_markdown.
  rewrite E1, E2, !parse_loop_app by exact Hpre.
  now rewrite parse_loop_step, (dropped_skipped Hl).
Qed.

Example dropped_line_irrelevant_witness :
  parse_markdown (join [nl] [str "## A"; str "one"; str "---"; str "two"])
  = parse_markdown (join [nl] [str "## A"; str "one"; str "two"]).
Proof.
  apply (@dropped_line_irrelevant _ _ [str "## A"; str "one"] (str "---")
           [str "two"]).
  - reflexivity.
  - reflexivity.
  - repeat constructor.
  - right. reflexivity.
Defined.

Lemma parse_loop_quiet (body : list pystr) (st : pstate) :
  Forall quiet_line body ->
  sections (parse_loop body st) = sections st
  /\ current_section (parse_loop body st) = current_section st.
Proof.
  intros H. revert st.
  induction H as [|l body (Hm & Hs & Hf) _ IH]; intros st; [now split|].
  rewrite parse_loop_step.
  destruct (classify l); try congruence;
    match goal with
    | |- context [parse_loop body ?s] =>
        destruct (IH s) as [E1 E2]; rewrite E1, E2
    end; now split.
Qed.

(** X6: a [## ] line outside every fenced block whose title is blank
    opens a section that is never written out: when only content lines
    follow it, the parse is the one of the lines before it. *)
Theorem blank_title_section_lost (text : pystr) (pre : list pystr)
    (header : pystr) (body : list pystr) :
  split nl text = pre ++ header :: body ->
  outside_blocks pre ->
  startswith (str "## ") header = true ->
  strip (skipn 3 header) = [] ->
  Forall quiet_line body ->
  parse_markdown text = finish (parse_loop pre initial).
Proof.
  intros E Hpre Hh Hblank Hbody. unfold parse_markdown. cbv zeta.
  rewrite E, parse_loop_app_outside by exact Hpre.
  rewrite parse_loop_step, (proj2 (classify_main header) Hh).
  destruct (parse_loop_quiet (on_main header (parse_loop pre initial)) Hbody)
    as [Es Ec].
  rewrite Es, Ec. cbn [on_main sections current_section].
  now rewrite Hblank.
Qed.

Example blank_title_section_lost_witness :
  parse_markdown
    (join [nl] [str "## A"; str "```"; str "code"; str "```"; str "##  ";
                str "lost"; str "- too"])
  = [mk_section (Some (str "A"))
                (join [nl] [str "[CODE]"; str "code"; str "[/CODE]"]) 1 None].
Proof.
  rewrite (@blank_title_section_lost _
             [str "## A"; str "```"; str "code"; str "```"] (str "##  ")
             [str "lost"; str "- too"]).
  - reflexivity.
  - reflexivity.
  - reflexivity.
  - reflexivity.
  - reflexivity.
  - repeat constructor; discriminate.
Defined.

Lemma current_section_last_title (pre : list pystr) (st : pstate) :
  Forall (fun x => startswith fence x = false) pre ->
  current_section (parse_loop pre st)
  = fold_left (fun acc l =>
                 if startswith (str "## ") l then Some (strip (skipn 3 l))
                 else acc)
              pre (current_section st).
Proof.
  intros H. revert st. induction H as [|l pre Hl _ IH]; intros st;
    [reflexivity|].
  rewrite parse_loop_step. cbn [fold_left].
  pose proof (classify_fence_free l Hl) as Hnf.
  pose proof (classify_main l) as Hm.
  destruct (startswith (str "## ") l).
  - rewrite (proj2 Hm eq_refl), IH. reflexivity.
  - destruct (classify l) eqn:Hk; try congruence; rewrite IH;
      try reflexivity.
    + destruct Hm as [Hm _]. specialize (Hm eq_refl). discriminate.
    + unfold on_sub. now destruct (has_items (current_content st)).
Qed.

(** X7: the parent of the level-2 record of a [### ] line is the stripped
    title of the last [## ] line before it, blank or not, and [None] when
    there is none. *)
Theorem sub_header_parent (text : pystr) (pre : list pystr) (line : pystr)
    (post : list pystr) :
  split nl text = pre ++ line :: post ->
  Forall (fun x => startswith fence x = false) pre ->
  startswith (str "### ") line = true ->
  exists before later,
    parse_markdown text
    = before
      ++ [mk_section (Some (strip (skipn 4 line))) [] 2
                     (Some (last_main_title pre))]
      ++ later.
Proof.
  intros E Hpre Hsub.
  change (parse_markdown text)
    with (finish (parse_loop (split nl text) initial)).
  rewrite E, parse_loop_app by exact Hpre.
  rewrite parse_loop_step, (sub_classified line Hsub).
  set (st := parse_loop pre initial).
  destruct (sections_grow post (on_sub line st)) as [more Em].
  rewrite Em.
  assert (Ep : last_main_title pre = current_section st)
    by (symmetry; exact (current_section_last_title initial Hpre)).
  rewrite Ep. unfold on_sub. destruct (has_items (current_content st)); cbn [sections].
  - exists (sections st ++ [flushed st]), more. now rewrite <- !app_assoc.
  - exists (sections st), more. now rewrite <- !app_assoc.
Qed.

Example sub_header_parent_witness :
  exists before later,
    parse_markdown scenario
    = before
      ++ [mk_section (Some (str "Sub")) [] 2 (Some (Some (str "Intro")))]
      ++ later.
Proof.
  apply (@sub_header_parent scenario [str "## Intro"; str "Some text"]
           (str "### Sub") [str "More text"; str "## Next"; str "Final"]).
  - reflexivity.
  - repeat constructor.
  - reflexivity.
Defined.

Lemma parse_loop_body (body : list pystr) (st : pstate) :
  Forall body_line body ->
  parse_loop body st
  = mk_pstate (sections st) (current_section st) (current_content st ++ body).
Proof.
  intros H. revert st. induction H as [|l ls Hl _ IH]; intros st.
  - cbn [parse_loop]. rewrite app_nil_r. now destruct st.
  - rewrite parse_loop_step.
    destruct Hl as [-> | ->]; rewrite IH;
      cbn [push sections current_section current_content];
      now rewrite <- app_assoc.
Qed.

(** X8: a [## ] line outside every fenced block with a non-blank title,
    followed by text and bullet lines up to the next [## ] line or the end
    of the text, gives one level-1 record: the stripped title with the
    lines joined by newlines and stripped as content.  It comes right
    after the records of the lines before the header. *)
Theorem section_record (text : pystr) (pre : list pystr) (header : pystr)
    (body post : list pystr) :
  split nl text = pre ++ header :: body ++ post ->
  outside_blocks pre ->
  startswith (str "## ") header = true ->
  nonempty (strip (skipn 3 header)) = true ->
  Forall body_line body ->
  (post = [] \/ exists next rest,
                  post = next :: rest /\ startswith (str "## ") next = true) ->
  exists later,
    parse_markdown text
    = finish (parse_loop pre initial)
      ++ [mk_section (Some (strip (skipn 3 header)))
                     (strip (join [nl] body)) 1 None]
      ++ later
    /\ (post = [] -> later = []).
Proof.
  intros E Hpre Hh Htitle Hbody Hpost.
  change (parse_markdown text)
    with (finish (parse_loop (split nl text) initial)).
  rewrite E, parse_loop_app_outside by exact Hpre.
  rewrite parse_loop_step, (proj2 (classify_main header) Hh).
  set (st := parse_loop pre initial).
  assert (Est : sections (on_main header st) = finish st) by reflexivity.
  assert (Hfence : Forall (fun x => startswith fence x = false) body).
  { eapply Forall_impl; [|exact Hbody]. intros l Hl.
    destruct (startswith fence l) eqn:Hf; [|reflexivity].
    apply classify_fence in Hf. destruct Hl as [Hl|Hl]; congruence. }
  rewrite parse_loop_app by exact Hfence.
  rewrite (parse_loop_body (on_main header st) Hbody).
  cbn [on_main current_section current_content app]. rewrite Est.
  destruct Hpost as [->|(next & rest & -> & Hnext)].
  - exists []. split; [|reflexivity].
    cbn [parse_loop]. unfold finish, flushed.
    cbn [sections current_section current_content truthy]. now rewrite Htitle.
  - rewrite parse_loop_step, (proj2 (classify_main next) Hnext).
    match goal with
    | |- context [parse_loop rest ?s] =>
        destruct (sections_grow rest s) as [more Em]; rewrite Em
    end.
    exists more. split; [|discriminate].
    cbn [on_main sections current_section current_content truthy flushed].
    rewrite Htitle. unfold flushed. cbn [current_section current_content].
    now rewrite <- !app_assoc.
Qed.

Example section_record_witness :
  exists later,
    parse_markdown
      (join [nl] [str "```"; str "## not a header"; str "```";
                  str "## One"; str "first"; str "- item";
                  str "## Two"; str "second"])
    = [mk_section (Some (str "One"))
                  (join [nl] [str "first"; str "- item"]) 1 None]
      ++ later.
Proof.
  destruct (@section_record
              (join [nl] [str "```"; str "## not a header"; str "```";
                          str "## One"; str "first"; str "- item";
                          str "## Two"; str "second"])
              [str "```"; str "## not a header"; str "```"]
              (str "## One") [str "first"; str "- item"]
              [str "## Two"; str "second"])
    as [later [E _]].
  - reflexivity.
  - reflexivity.
  - reflexivity.
  - reflexivity.
  - constructor; [now left|]. constructor; [now right|constructor].
  - right. exists (str "## Two"), [str "second"]. now split.
  - exists later. exact E.
Defined.

(** X21: a fence that is never closed takes every line after it as
    code, header lines included: the records are those made before the
    fence, followed at most by the open section, whose content ends with
    the code region. *)
Theorem unclosed_fence_swallows (text : pystr) (pre : list pystr)
    (opening : pystr) (block : list pystr) :
  split nl text = pre ++ opening :: block ->
  Forall (fun x => startswith fence x = false) pre ->
  startswith fence opening = true ->
  Forall (fun x => startswith fence x = false) block ->
  let st := parse_loop pre initial in
  parse_markdown text
  = sections st
    ++ (if truthy (current_section st)
        then [mk_section (current_section st)
                (strip (join [nl] (current_content st
                                   ++ [code_region block]))) 1 None]
        else []).
Proof.
  intros E Hpre Hopen Hblock st. unfold parse_markdown. cbv zeta.
  rewrite E, parse_loop_app by exact Hpre. fold st.
  rewrite parse_loop_step, (classify_fence opening Hopen).
  pose proof (@fenced_block block [] [] Hblock
                (or_introl (conj eq_refl eq_refl))) as Ef.
  cbn [app] in Ef. rewrite app_nil_r in Ef. rewrite Ef.
  cbn [fst snd parse_loop on_fence push sections current_section].
  destruct (truthy (current_section st)); [reflexivity|].
  now rewrite app_nil_r.
Qed.

Example unclosed_fence_swallows_witness :
  parse_markdown
    (join [nl] [str "## A"; str "text"; str "```"; str "## B"; str "code"])
  = [mk_section (Some (str "A"))
       (strip (join [nl] [str "text";
                          code_region [str "## B"; str "code"]])) 1 None].
Proof.
  apply (@unclosed_fence_swallows _ [str "## A"; str "text"] (str "```")
           [str "## B"; str "code"]).
  - reflexivity.
  - repeat constructor.
  - reflexivity.
  - repeat constructor.
Defined.

End ParserMore.

(** ** The slide renderer: further properties *)

Section SlidesMore.

Import Slides CodeRe.

Lemma content_slides_raises (secs : list section_rec) :
  content_slides secs = Raises <->
  exists s, In s secs /\ level s = 1%Z /\ title s = None.
Proof.
  induction secs as [|s secs IH]; cbn [content_slides].
  - split; [discriminate|]. now intros (s & [] & _).
  - destruct (Z.eqb_spec (level s) 1) as [E|N].
    + destruct (title s) as [t|] eqn:Ht.
      * destruct (content_slides secs) as [slides|].
        -- split; [discriminate|]. intros (x & [<-|Hx] & Hl & Hn).
           ++ congruence.
           ++ destruct IH as [_ IH]. discriminate IH. now exists x.
        -- split; [|reflexivity]. intros _.
           destruct IH as [IH _]. destruct (IH eq_refl) as (x & Hx & Hl & Hn).
           exists x. repeat split; try assumption. now right.
      * split; [|reflexivity]. intros _. exists s.
        repeat split; try assumption. now left.
    + rewrite IH. split; intros (x & Hx & Hl & Hn).
      * exists x. repeat split; try assumption. now right.
      * destruct Hx as [<-|Hx]; [contradiction|]. now exists x.
Qed.

Lemma content_slides_length (secs : list section_rec) (slides : list slide) :
  content_slides secs = Returns slides ->
  length slides = level1_count secs.
Proof.
  revert slides. unfold level1_count.
  induction secs as [|s secs IH]; intros slides; cbn [content_slides filter].
  - now intros [= <-].
  - destruct (level s =? 1)%Z; [|apply IH].
    destruct (title s); [|discriminate].
    destruct (content_slides secs) as [more|]; [|discriminate].
    intros [= <-]. cbn [length]. now rewrite (IH more).
Qed.

Lemma content_slides_level1 (secs : list section_rec) :
  content_slides (filter (fun s => (level s =? 1)%Z) secs)
  = content_slides secs.
Proof.
  induction secs as [|s secs IH]; [reflexivity|].
  cbn [filter content_slides].
  destruct (level s =? 1)%Z eqn:Hl; [|exact IH].
  cbn [content_slides]. now rewrite Hl, IH.
Qed.

Lemma deck_length (secs : list section_rec) (slides : list slide) :
  create_powerpoint secs = Returns slides ->
  length slides = 1 + level1_count secs.
Proof.
  unfold create_powerpoint.
  destruct (content_slides secs) as [more|] eqn:E; [|discriminate].
  intros [= <-]. cbn [length]. now rewrite (@content_slides_length _ _ E).
Qed.

(** X9: the renderer raises, and writes no deck, exactly when a level-1
    section has the title [None]; otherwise the deck has the title slide
    first and one slide for each level-1 section, and sections of any
    other level give no slide. *)
Theorem slide_count (secs : list section_rec) :
  (create_powerpoint secs = Raises <->
   exists s, In s secs /\ level s = 1%Z /\ title s = None)
  /\ forall slides,
       create_powerpoint secs = Returns slides ->
       length slides = 1 + level1_count secs
       /\ hd_error slides = Some title_slide
       /\ create_powerpoint (filter (fun s => (level s =? 1)%Z) secs)
          = Returns slides.
Proof.
  split.
  - rewrite <- content_slides_raises. unfold create_powerpoint.
    destruct (content_slides secs); split; congruence.
  - intros slides H. split; [exact (@deck_length _ _ H)|].
    unfold create_powerpoint in *. rewrite content_slides_level1.
    destruct (content_slides secs); [|discriminate].
    injection H as <-. now split.
Qed.

Lemma slide_in_deck (secs : list section_rec) (slides : list slide)
    (sl : slide) :
  create_powerpoint secs = Returns slides ->
  In sl slides ->
  sl = title_slide
  \/ exists s t, In s secs /\ level s = 1%Z /\ title s = Some t
                 /\ sl = ContentSlide t (slide_body (content s)).
Proof.
  unfold create_powerpoint.
  destruct (content_slides secs) as [more|] eqn:E; [|discriminate].
  intros [= <-] [<-|H]; [now left|]. right.
  revert more E H. induction secs as [|s secs IH]; intros more;
    cbn [content_slides].
  - intros [= <-] [].
  - destruct (Z.eqb_spec (level s) 1) as [El|Nl].
    + destruct (title s) as [t|] eqn:Ht; [|discriminate].
      destruct (content_slides secs) as [rest|]; [|discriminate].
      intros [= <-] [<-|H].
      * exists s, t. repeat split; try assumption. now left.
      * destruct (IH rest eq_refl H) as (x & tx & Hx & Hrest).
        exists x, tx. split; [now right|exact Hrest].
    + intros E H. destruct (IH more E H) as (x & tx & Hx & Hrest).
      exists x, tx. split; [now right|exact Hrest].
Qed.

Lemma slide_body_cases (c : pystr) (b : list paragraph) :
  slide_body c = Some b ->
  (exists code, b = [mk_paragraph (firstn 500 (strip code)) None (Some 10%Z)
                                  (Some (str "Courier New"))])
  \/ b = blank :: map line_paragraph (firstn 10 (nonblank_lines c)).
Proof.
  unfold slide_body. destruct (contains (str "[CODE]") c).
  - destruct (search c) as [[[before code] rest]|]; [|discriminate].
    intros [= <-]. left. now exists code.
  - intros [= <-]. now right.
Qed.

(** X10: no paragraph of any slide of a deck is at outline level 1: a
    paragraph is at level 0 or has no level set, and every body has at
    most eleven paragraphs. *)
Theorem deck_paragraphs (secs : list section_rec) (slides : list slide)
    (t : pystr) (body : list paragraph) :
  create_powerpoint secs = Returns slides ->
  In (ContentSlide t (Some body)) slides ->
  length body <= 11
  /\ forall p, In p body -> p_level p = Some 0%Z \/ p_level p = None.
Proof.
  intros E H. apply (@slide_in_deck _ _ _ E) in H.
  destruct H as [H|(s & ts & _ & _ & _ & H)]; [discriminate|].
  injection H as _ Hb. symmetry in Hb.
  apply slide_body_cases in Hb.
  destruct Hb as [[code ->]| ->].
  - split; [cbn; lia|]. intros p [<-|[]]. now right.
  - split.
    + cbn [length]. rewrite length_map, length_firstn. lia.
    + intros p [<-|Hp]; [now right|].
      apply in_map_iff in Hp. destruct Hp as (l & <- & _).
      apply line_paragraph_level.
Qed.

Example deck_paragraphs_witness :
  length [blank; mk_paragraph (str "top") (Some 0%Z) (Some 14%Z) None;
          mk_paragraph (str "nested") (Some 0%Z) (Some 14%Z) None] <= 11
  /\ forall p,
       In p [blank; mk_paragraph (str "top") (Some 0%Z) (Some 14%Z) None;
             mk_paragraph (str "nested") (Some 0%Z) (Some 14%Z) None] ->
       p_level p = Some 0%Z \/ p_level p = None.
Proof.
  apply (@deck_paragraphs
           [mk_section (Some (str "A"))
                       (join [nl] [str "- top"; str "  - nested"]) 1 None]
           _ (str "A") _ eq_refl).
  right. left. reflexivity.
Defined.



Lemma in_strip (c : char) (s : pystr) : In c (strip s) -> In c s.
Proof.
  destruct (strip_spec s) as (ws1 & ws2 & E & _). intros H. rewrite E.
  apply in_or_app. right. apply in_or_app. now left.
Qed.

Lemma in_skipn (c : char) (n : nat) (s : pystr) : In c (skipn n s) -> In c s.
Proof.
  intros H. rewrite <- (firstn_skipn n s). apply in_or_app. now right.
Qed.

Lemma replace_char_removes (o : char) (s : pystr) : ~ In o (replace [o] [] s).
Proof.
  induction s as [|c s IH]; [intros []|].
  unfold replace in *. cbn [replace_from startswith length Nat.sub].
  rewrite andb_true_r.
  destruct (N.eqb_spec o c) as [->|Hne]; [exact IH|].
  intros [K|K]; [congruence|contradiction].
Qed.

(** X12: the text of a paragraph made from a content line never holds a
    backtick. *)
Theorem no_backtick_on_slide (line : pystr) :
  ~ In 96%N (p_text (line_paragraph line)).
Proof.
  assert (H : ~ In 96%N (clean_line line)).
  { unfold clean_line. intros K. apply in_strip in K.
    change (str "`") with [96%N] in K. now apply replace_char_removes in K. }
  unfold line_paragraph.
  repeat match goal with
         | |- context [if ?b then _ else _] => destruct b
         end; cbn [p_text]; intros K; apply H;
    try (now apply in_skipn in K); exact K.
Qed.

End SlidesMore.

(** ** The document renderer: further properties *)

Section PdfMore.

Import Pdf CodeRe.

(** X13: without a code region the escaping works character by
    character: [&], [<] and [>] become [&amp;], [&lt;] and [&gt;], every
    other character stays, and the escape of a concatenation is the
    concatenation of the escapes. *)
Theorem escape_plain_by_character (a b : pystr) (c : char) :
  escape_plain (a ++ b) = escape_plain a ++ escape_plain b
  /\ escape_plain [c] = escape_char c
  /\ (c <> 38%N -> c <> 60%N -> c <> 62%N -> escape_plain [c] = [c]).
Proof.
  rewrite !escape_plain_chars. repeat split.
  - apply flat_map_app.
  - cbn [flat_map]. apply app_nil_r.
  - intros H38 H60 H62. cbn [flat_map]. rewrite app_nil_r.
    unfold escape_char.
    destruct (N.eqb_spec c 38); [contradiction|].
    destruct (N.eqb_spec c 60); [contradiction|].
    destruct (N.eqb_spec c 62); [contradiction|reflexivity].
Qed.

Lemma escape_char_no_angle (c x : char) :
  In x (escape_char c) -> x <> 60%N /\ x <> 62%N.
Proof.
  unfold escape_char.
  destruct (N.eqb_spec c 38);
    [intros K; repeat (destruct K as [<-|K]; [split; discriminate|]);
     destruct K|].
  destruct (N.eqb_spec c 60);
    [intros K; repeat (destruct K as [<-|K]; [split; discriminate|]);
     destruct K|].
  destruct (N.eqb_spec c 62);
    [intros K; repeat (destruct K as [<-|K]; [split; discriminate|]);
     destruct K|].
  intros [<-|[]]. now split.
Qed.

Lemma escape_char_twice_no_angle (c x : char) :
  In x (escape_char_twice c) -> x <> 60%N /\ x <> 62%N.
Proof.
  unfold escape_char_twice.
  destruct (N.eqb_spec c 38);
    [intros K; repeat (destruct K as [<-|K]; [split; discriminate|]);
     destruct K|].
  destruct (N.eqb_spec c 60);
    [intros K; repeat (destruct K as [<-|K]; [split; discriminate|]);
     destruct K|].
  destruct (N.eqb_spec c 62);
    [intros K; repeat (destruct K as [<-|K]; [split; discriminate|]);
     destruct K|].
  intros [<-|[]]. now split.
Qed.

Lemma escaped_no_angle (clean : pystr) (x : char) :
  In x (escape_plain clean) \/ In x (escape_around_code clean) ->
  x <> 60%N /\ x <> 62%N.
Proof.
  rewrite escape_plain_chars, escape_around_code_chars.
  intros [K|K]; apply in_flat_map in K; destruct K as (c & _ & K).
  - exact (escape_char_no_angle _ _ K).
  - exact (escape_char_twice_no_angle _ _ K).
Qed.

Lemma bullet_no_angle (x : char) : In x bullet -> x <> 60%N /\ x <> 62%N.
Proof. intros [<-|[<-|[]]]; split; discriminate. Qed.

Lemma escape_plain_stripped_head (s p : pystr) :
  startswith (32%N :: p) (escape_plain (strip s)) = false.
Proof.
  rewrite escape_plain_chars.
  destruct (strip s) as [|c r] eqn:E; [reflexivity|].
  apply strip_head in E. cbn [flat_map]. unfold escape_char at 1.
  destruct (c =? 38)%N; [reflexivity|].
  destruct (c =? 60)%N; [reflexivity|].
  destruct (c =? 62)%N; [reflexivity|].
  cbn [app startswith].
  destruct (N.eqb_spec 32 c) as [<-|]; [discriminate|reflexivity].
Qed.

(** The flowables of one line: none, the escaped line, or a bullet. *)
Lemma plain_line_cases (line : pystr) :
  let clean := escape_plain (unmark line) in
  plain_line line = []
  \/ (plain_line line = [Paragraph clean BodyStyle]
      /\ nonempty clean = true)
  \/ plain_line line = [Paragraph (bullet ++ skipn 2 clean) BodyStyle].
Proof.
  intros clean. unfold plain_line. fold clean.
  destruct (startswith (str "- ") clean || startswith (str "* ") clean);
    [now right; right|].
  change (str "  - ") with (32%N :: str " - ").
  change (str "  * ") with (32%N :: str " * ").
  unfold clean, unmark. rewrite !escape_plain_stripped_head. cbn [orb].
  destruct (nonempty _) eqn:E; [right; left; now split|now left].
Qed.

Lemma around_code_line_cases (line : pystr) :
  let clean := escape_around_code (unmark line) in
  around_code_line line = []
  \/ around_code_line line = [Paragraph clean BodyStyle]
  \/ around_code_line line
     = [Paragraph (bullet ++ skipn 2 clean) BodyStyle].
Proof.
  intros clean. unfold around_code_line. fold clean.
  destruct (startswith (str "- ") clean || startswith (str "* ") clean);
    [now right; right|].
  destruct (nonempty clean); [now right; left|now left].
Qed.

Lemma paragraph_no_angle (clean t : pystr) (st : style)
    (flow : list flowable) :
  (forall x, In x clean -> x <> 60%N /\ x <> 62%N) ->
  flow = []
  \/ flow = [Paragraph clean BodyStyle]
  \/ flow = [Paragraph (bullet ++ skipn 2 clean) BodyStyle] ->
  In (Paragraph t st) flow ->
  forall x, In x t -> x <> 60%N /\ x <> 62%N.
Proof.
  intros Hc [-> | [-> | ->]] H; [destruct H| |]; destruct H as [H|[]].
  - assert (Ht : t = clean) by congruence. now subst.
  - assert (Ht : t = bullet ++ skipn 2 clean) by congruence. subst t.
    intros x Hx. apply in_app_or in Hx. destruct Hx as [Hx|Hx].
    + now apply bullet_no_angle.
    + apply in_skipn in Hx. now apply Hc.
Qed.

Lemma plain_line_no_angle (line t : pystr) (st : style) :
  In (Paragraph t st) (plain_line line) ->
  forall x, In x t -> x <> 60%N /\ x <> 62%N.
Proof.
  apply (@paragraph_no_angle (escape_plain (unmark line))).
  - intros x Hx. apply (@escaped_no_angle (unmark line)). now left.
  - destruct (plain_line_cases line) as [E|[[E _]|E]]; auto.
Qed.

Lemma around_code_line_no_angle (line t : pystr) (st : style) :
  In (Paragraph t st) (around_code_line line) ->
  forall x, In x t -> x <> 60%N /\ x <> 62%N.
Proof.
  apply (@paragraph_no_angle (escape_around_code (unmark line))).
  - intros x Hx. apply (@escaped_no_angle (unmark line)). now right.
  - apply around_code_line_cases.
Qed.

Lemma escaped_plain (clean : pystr) : escaped_text (escape_plain clean).
Proof.
  rewrite escape_plain_chars.
  induction clean as [|c t IH]; [constructor|].
  cbn [flat_map]. unfold escape_char.
  destruct (N.eqb_spec c 38); [now apply escaped_amp|].
  destruct (N.eqb_spec c 60); [now apply escaped_lt|].
  destruct (N.eqb_spec c 62); [now apply escaped_gt|].
  now apply escaped_char.
Qed.

Lemma escaped_around_code (clean : pystr) :
  escaped_text (escape_around_code clean).
Proof.
  rewrite escape_around_code_chars.
  induction clean as [|c t IH]; [constructor|].
  cbn [flat_map]. unfold escape_char_twice.
  destruct (N.eqb_spec c 38); [now apply escaped_amp|].
  destruct (N.eqb_spec c 60).
  { apply escaped_amp. repeat (apply escaped_char; [discriminate..|]).
    exact IH. }
  destruct (N.eqb_spec c 62).
  { apply escaped_amp. repeat (apply escaped_char; [discriminate..|]).
    exact IH. }
  now apply escaped_char.
Qed.

Lemma escaped_tail (c : char) (t : pystr) :
  escaped_text (c :: t) -> escaped_text t.
Proof.
  intros H. remember (c :: t) as s eqn:Es.
  destruct H as [|c' t' _ _ H|t' H|t' H|t' H]; try discriminate;
    cbn [app str map list_ascii_of_string] in Es;
    injection Es as _ <-; try exact H;
    repeat (apply escaped_char; [discriminate..|]); exact H.
Qed.

Lemma escaped_skipn (n : nat) (t : pystr) :
  escaped_text t -> escaped_text (skipn n t).
Proof.
  revert t. induction n as [|n IH]; intros [|c t] H; cbn [skipn];
    try assumption.
  apply IH. exact (escaped_tail H).
Qed.

(** The paragraphs made from the content of a section carry escaped
    text, in both paths: building them does not raise. *)
Lemma content_paragraphs_escaped (content t : pystr) (st : style) :
  In (Paragraph t st) (content_flow content) -> escaped_text t.
Proof.
  assert (G : forall clean flow,
             escaped_text clean ->
             flow = []
             \/ flow = [Paragraph clean BodyStyle]
             \/ flow = [Paragraph (bullet ++ skipn 2 clean) BodyStyle] ->
             In (Paragraph t st) flow -> escaped_text t).
  { intros clean flow Hc [-> | [-> | ->]] Hin; [destruct Hin| |];
      destruct Hin as [Hin|[]].
    - now replace t with clean by congruence.
    - assert (Et : t = bullet ++ skipn 2 clean) by congruence. subst t.
      unfold bullet. cbn [app].
      repeat (apply escaped_char; [discriminate..|]).
      now apply escaped_skipn. }
  intros H. unfold content_flow in H.
  destruct (contains (str "[CODE]") content).
  - apply in_flat_map in H. destruct H as ([i part] & _ & H).
    unfold part_flow in H. destruct (Nat.even i).
    + destruct (nonempty (strip part)); [|destruct H].
      apply in_flat_map in H. destruct H as (line & _ & H).
      apply (G (escape_around_code (unmark line)) (around_code_line line));
        [apply escaped_around_code|apply around_code_line_cases|exact H].
    + apply in_app_or in H. destruct H as [H|[H|[]]]; [|discriminate].
      apply in_map_iff in H. destruct H as (? & ? & _). discriminate.
  - apply in_flat_map in H. destruct H as (line & _ & H).
    apply (G (escape_plain (unmark line)) (plain_line line));
      [apply escaped_plain| |exact H].
    destruct (plain_line_cases line) as [E|[[E _]|E]]; auto.
Qed.

(** X14: no paragraph made from the content of a section holds a raw
    [<] or [>], with or without a code region in the content. *)
Theorem content_paragraphs_no_angle (content t : pystr) (st : style) :
  In (Paragraph t st) (content_flow content) ->
  ~ In 60%N t /\ ~ In 62%N t.
Proof.
  intros H.
  enough (G : forall x, In x t -> x <> 60%N /\ x <> 62%N).
  { split; intros K; destruct (G _ K); congruence. }
  unfold content_flow in H. destruct (contains (str "[CODE]") content).
  - apply in_flat_map in H. destruct H as ([i part] & _ & H).
    unfold part_flow in H. destruct (Nat.even i).
    + destruct (nonempty (strip part)); [|destruct H].
      apply in_flat_map in H. destruct H as (line & _ & H).
      exact (@around_code_line_no_angle _ _ _ H).
    + apply in_app_or in H. destruct H as [H|[H|[]]]; [|discriminate].
      apply in_map_iff in H. destruct H as (? & ? & _). discriminate.
  - apply in_flat_map in H. destruct H as (line & _ & H).
    exact (@plain_line_no_angle _ _ _ H).
Qed.

Example content_paragraphs_no_angle_witness :
  ~ In 60%N (str "a &lt; b &amp; c") /\ ~ In 62%N (str "a &lt; b &amp; c").
Proof.
  apply (@content_paragraphs_no_angle (str "a < b & c") _ BodyStyle).
  left. reflexivity.
Defined.

(** X15: the content of a section without code region gives body
    paragraphs only, and none begins with a space: the indented bullet of
    the branch for two leading spaces is never produced, the line being
    stripped before the test. *)
Theorem plain_content_paragraphs (content : pystr) (f : flowable) :
  contains (str "[CODE]") content = false ->
  In f (content_flow content) ->
  exists t, f = Paragraph t BodyStyle
            /\ nonempty t = true /\ startswith [32%N] t = false.
Proof.
  intros Hc H. unfold content_flow in H. rewrite Hc in H.
  apply in_flat_map in H. destruct H as (line & _ & H).
  destruct (plain_line_cases line) as [E|[[E Hn]|E]]; rewrite E in H.
  - destruct H.
  - destruct H as [<-|[]]. eexists. split; [reflexivity|]. split; [exact Hn|].
    unfold unmark. apply escape_plain_stripped_head.
  - destruct H as [<-|[]]. eexists. split; [reflexivity|]. now split.
Qed.

Example plain_content_paragraphs_witness :
  exists t, Paragraph (bullet ++ str "nested") BodyStyle
            = Paragraph t BodyStyle
            /\ nonempty t = true /\ startswith [32%N] t = false.
Proof.
  apply (@plain_content_paragraphs
           (join [nl] [str "- top"; str "  - nested"])).
  - reflexivity.
  - right. left. reflexivity.
Defined.

Lemma filter_none {A} (f : A -> bool) (l : list A) :
  Forall (fun a => f a = false) l -> filter f l = [].
Proof.
  induction 1 as [|a l Ha _ IH]; [reflexivity|].
  cbn [filter]. now rewrite Ha.
Qed.

Lemma Forall_flat_map_each {A B} (P : B -> Prop) (f : A -> list B)
    (l : list A) :
  (forall a, Forall P (f a)) -> Forall P (flat_map f l).
Proof.
  intros H. induction l as [|a l IH]; [constructor|].
  cbn [flat_map]. apply Forall_app. now split.
Qed.

Lemma content_flow_styles (content : pystr) :
  Forall (fun f => styled HeadingStyle f = false
                   /\ styled SubHeadingStyle f = false)
         (content_flow content).
Proof.
  unfold content_flow. destruct (contains (str "[CODE]") content);
    apply Forall_flat_map_each.
  - intros [i part]. unfold part_flow. destruct (Nat.even i).
    + destruct (nonempty (strip part)); [|constructor].
      apply Forall_flat_map_each. intros line. unfold around_code_line.
      repeat match goal with
             | |- context [if ?b then _ else _] => destruct b
             end; repeat constructor.
    + apply Forall_app. split; [|repeat constructor].
      apply Forall_forall. intros f Hf. apply in_map_iff in Hf.
      destruct Hf as (? & <- & _). now split.
  - intros line. unfold plain_line.
    repeat match goal with
           | |- context [if ?b then _ else _] => destruct b
           end; repeat constructor.
Qed.

Lemma style_count_app (st : style) (a b : list flowable) :
  style_count st (a ++ b) = style_count st a + style_count st b.
Proof. unfold style_count. now rewrite filter_app, length_app. Qed.

Lemma content_flow_no_heading (content : pystr) :
  style_count HeadingStyle (content_flow content) = 0
  /\ style_count SubHeadingStyle (content_flow content) = 0.
Proof.
  pose proof (content_flow_styles content) as Hc. unfold style_count.
  rewrite !filter_none
    by (eapply Forall_impl; [|exact Hc]; now intros f [? ?]).
  now split.
Qed.

Lemma Returns_inj {A} (a b : A) : Returns a = Returns b -> a = b.
Proof. now intros [= ->]. Qed.

Lemma heading_style (parses : pystr -> bool) (t : option pystr)
    (st : style) (h : flowable) :
  heading parses t st = Returns h -> exists text, h = Paragraph text st.
Proof.
  unfold heading. destruct t as [text|]; [|discriminate].
  destruct (markup_free text || parses text); [|discriminate].
  intros [= <-]. now exists text.
Qed.

Lemma section_flow_counts (parses : pystr -> bool) (s : section_rec)
    (flow : list flowable) :
  section_flow parses s = Returns flow ->
  style_count HeadingStyle flow = (if (level s =? 1)%Z then 1 else 0)
  /\ style_count SubHeadingStyle flow = (if (level s =? 2)%Z then 1 else 0).
Proof.
  unfold section_flow.
  destruct (content_flow_no_heading (content s)) as [H1 H2].
  destruct (Z.eqb_spec (level s) 1) as [E1|N1].
  - destruct (heading parses (title s) HeadingStyle) as [h|] eqn:Eh;
      [|discriminate].
    destruct (heading_style _ _ _ Eh) as [text ->].
    intros E. apply Returns_inj in E.
    subst flow. rewrite !style_count_app, H1, H2, E1. now split.
  - destruct (level s =? 2)%Z.
    + destruct (heading parses (title s) SubHeadingStyle) as [h|] eqn:Eh;
        [|discriminate].
      destruct (heading_style _ _ _ Eh) as [text ->].
      intros [= <-]. now split.
    + intros [= <-]. now split.
Qed.

Lemma story_style_counts (parses : pystr -> bool) (secs : list section_rec)
    (story : list flowable) :
  create_pdf parses secs = Returns story ->
  style_count HeadingStyle story = level1_count secs
  /\ style_count SubHeadingStyle story = level2_count secs.
Proof.
  unfold create_pdf.
  destruct (sections_flow parses secs) as [flow|] eqn:E; [|discriminate].
  intros Es. apply Returns_inj in Es. subst story.
  rewrite !style_count_app.
  change (style_count HeadingStyle title_page) with 0.
  change (style_count SubHeadingStyle title_page) with 0.
  cbn [Nat.add].
  revert flow E. induction secs as [|s secs IH]; intros flow;
    cbn [sections_flow].
  - intros [= <-]. now split.
  - destruct (section_flow parses s) as [f|] eqn:Ef; [|discriminate].
    destruct (sections_flow parses secs) as [more|]; [|discriminate].
    intros Es. apply Returns_inj in Es. subst flow.
    rewrite !style_count_app.
    destruct (IH more eq_refl) as [-> ->].
    destruct (section_flow_counts _ _ Ef) as [-> ->].
    unfold level1_count, level2_count. cbn [filter].
    destruct (level s =? 1)%Z, (level s =? 2)%Z; split; reflexivity.
Qed.

Lemma section_flow_returns (parses : pystr -> bool) (s : section_rec) :
  (exists flow, section_flow parses s = Returns flow) <->
  (level s = 1%Z \/ level s = 2%Z -> heading_builds parses s).
Proof.
  unfold section_flow, heading, heading_builds.
  destruct (Z.eqb_spec (level s) 1) as [E1|N1];
    [|destruct (Z.eqb_spec (level s) 2) as [E2|N2]].
  - destruct (title s) as [text|].
    + destruct (markup_free text || parses text) eqn:Ok.
      * split; [|eauto]. intros _ _. exists text. split; [reflexivity|].
        now apply orb_true_iff.
      * split; [intros [? ?]; discriminate|]. intros H.
        destruct (H (or_introl E1)) as (x & [= <-] & Hx).
        apply orb_true_iff in Hx. congruence.
    + split; [intros [? ?]; discriminate|]. intros H.
      destruct (H (or_introl E1)) as (x & Hx & _). discriminate.
  - destruct (title s) as [text|].
    + destruct (markup_free text || parses text) eqn:Ok.
      * split; [|eauto]. intros _ _. exists text. split; [reflexivity|].
        now apply orb_true_iff.
      * split; [intros [? ?]; discriminate|]. intros H.
        destruct (H (or_intror E2)) as (x & [= <-] & Hx).
        apply orb_true_iff in Hx. congruence.
    + split; [intros [? ?]; discriminate|]. intros H.
      destruct (H (or_intror E2)) as (x & Hx & _). discriminate.
  - split; [|eauto]. intros _ [K|K]; contradiction.
Qed.

Lemma create_pdf_returns (parses : pystr -> bool) (secs : list section_rec) :
  (exists story, create_pdf parses secs = Returns story) <->
  Forall (fun s => level s = 1%Z \/ level s = 2%Z -> heading_builds parses s)
         secs.
Proof.
  unfold create_pdf.
  assert (H : (exists flow, sections_flow parses secs = Returns flow) <->
              Forall (fun s => level s = 1%Z \/ level s = 2%Z ->
                               heading_builds parses s) secs).
  { induction secs as [|s secs IH]; cbn [sections_flow].
    - split; [constructor|eauto].
    - pose proof (section_flow_returns parses s) as Hs.
      destruct (section_flow parses s) as [f|].
      + destruct (sections_flow parses secs) as [more|].
        * split; [|eauto]. intros _. constructor.
          -- apply Hs. eauto.
          -- apply IH. eauto.
        * split; [intros [? ?]; discriminate|]. intros K.
          inversion K as [|? ? _ Krest]; subst.
          destruct IH as [_ IH]. destruct (IH Krest). discriminate.
      + split; [intros [? ?]; discriminate|]. intros K.
        inversion K as [|? ? Khead _]; subst.
        destruct Hs as [_ Hs]. destruct (Hs Khead). discriminate. }
  rewrite <- H.
  destruct (sections_flow parses secs) as [flow|]; split;
    intros [x Hx]; try discriminate; eauto.
Qed.

(** X16: the document is built exactly when every level-1 and level-2
    section has a title from which a heading can be built; its story then
    has one heading paragraph for each level-1 section and one
    sub-heading paragraph for each level-2 section, and nothing made from
    the content is styled as a heading. *)
Theorem heading_counts (parses : pystr -> bool) (secs : list section_rec) :
  ((exists story, create_pdf parses secs = Returns story) <->
   Forall (fun s => level s = 1%Z \/ level s = 2%Z ->
                    heading_builds parses s) secs)
  /\ (forall story,
        create_pdf parses secs = Returns story ->
        style_count HeadingStyle story = level1_count secs
        /\ style_count SubHeadingStyle story = level2_count secs)
  /\ (forall content,
        style_count HeadingStyle (content_flow content) = 0
        /\ style_count SubHeadingStyle (content_flow content) = 0).
Proof.
  split; [apply create_pdf_returns|].
  split; [apply story_style_counts|apply content_flow_no_heading].
Qed.

End PdfMore.

(** ** The verifier and the generator together *)

Section EndToEnd.

Import Verify.

(** X17: the verifier exits with 0 exactly when the deck exists, opens
    with at least 10 slides and has a readable size, the PDF exists, has
    a readable size and begins with [%PDF-], and the documentation exists,
    can be read and holds the three required substrings. *)
Theorem exit_zero_iff (fs : files) :
  fst (main fs) = 0%Z <->
  (deck_exists fs = true
   /\ exists n size,
        deck_slides fs = Returns n /\ deck_size fs = Returns size /\ 10 <= n)
  /\ (pdf_exists fs = true
      /\ exists size bytes,
           pdf_size fs = Returns size /\ pdf_bytes fs = Returns bytes
           /\ firstn 5 bytes = pdf_magic)
  /\ (doc_exists fs = true
      /\ exists content,
           doc_text fs = Returns content
           /\ forall s, In s required_sections -> contains s content = true).
Proof.
  rewrite <- verify_powerpoint_true, <- verify_pdf_true,
    <- verify_documentation_true.
  unfold main.
  destruct (verify_powerpoint fs) as [[] ?], (verify_pdf fs) as [[] ?],
           (verify_documentation fs) as [[] ?]; cbn [fst all forallb andb];
    split; try discriminate; try tauto; intuition discriminate.
Qed.

(** X18: the deck that the slide renderer builds passes the slide check
    of the verifier exactly when the sections hold at least nine level-1
    records: the title slide counts as one of the ten. *)
Theorem generated_deck_check (fs : files) (secs : list section_rec)
    (slides : list Slides.slide) (size : N) :
  Slides.create_powerpoint secs = Returns slides ->
  deck_exists fs = true ->
  deck_slides fs = Returns (length slides) ->
  deck_size fs = Returns size ->
  fst (verify_powerpoint fs) = true <-> 9 <= level1_count secs.
Proof.
  intros Hd He Hs Hz. rewrite verify_powerpoint_true.
  rewrite (@deck_length _ _ Hd) in Hs.
  split.
  - intros [_ (n & sz & E & _ & Hn)]. rewrite Hs in E. injection E as <-. lia.
  - intros H. split; [exact He|].
    exists (1 + level1_count secs), size. repeat split; try assumption. lia.
Qed.

Example generated_deck_check_witness :
  fst (verify_powerpoint
         (mk_files true (Returns 4) (Returns 30000%N)
                   false Raises Raises false Raises)) = true
  <-> 9 <= level1_count (parse_markdown scenario).
Proof.
  apply (@generated_deck_check _ (parse_markdown scenario)
           [Slides.title_slide;
            Slides.ContentSlide (str "Intro")
              (Slides.slide_body (str "Some text"));
            Slides.ContentSlide (str "Intro")
              (Slides.slide_body (str "More text"));
            Slides.ContentSlide (str "Next")
              (Slides.slide_body (str "Final"))]
           30000%N);
    reflexivity.
Defined.

Lemma parse_levels (text : pystr) :
  Forall (fun s => level s = 1%Z \/ level s = 2%Z) (parse_markdown text).
Proof.
  assert (H : Forall (fun s => level s = 1%Z \/ level s = 2%Z)
                (sections (parse_loop (split nl text) initial))).
  { apply parse_loop_invariant
      with (P := fun st => Forall (fun s => level s = 1%Z \/ level s = 2%Z)
                             (sections st)).
    - intros l st Hst. cbn [on_main sections].
      destruct (truthy (current_section st)); [|exact Hst].
      apply Forall_app. split; [exact Hst|].
      apply Forall_cons; [now left|apply Forall_nil].
    - intros l st Hst. unfold on_sub.
      destruct (has_items (current_content st)); cbn [sections app];
        apply Forall_app; (split; [exact Hst|]);
        repeat (apply Forall_cons; [(now left) || (now right)|]);
        apply Forall_nil.
    - intros x st Hst. exact Hst.
    - apply Forall_nil. }
  unfold parse_markdown. cbv zeta.
  destruct (truthy _); [|exact H].
  apply Forall_app. split; [exact H|].
  apply Forall_cons; [now left|apply Forall_nil].
Qed.

Lemma count_by_level (secs : list section_rec) :
  Forall (fun s => level s = 1%Z \/ level s = 2%Z) secs ->
  length secs = level1_count secs + level2_count secs.
Proof.
  unfold level1_count, level2_count.
  induction 1 as [|s secs [E|E] _ IH]; [reflexivity| |];
    cbn [filter length]; rewrite E; cbn [Z.eqb Pos.eqb length]; lia.
Qed.

(** X19: a run that builds the document has written the deck before,
    and the two agree: the deck has one slide more than the document has
    headings, and the number of sections printed is the number of
    headings plus the number of sub-headings.  A run in which the slide
    renderer raises writes neither file and prints nothing after the
    line that announces the deck; that is the case exactly when a
    level-1 record of the parse has the title [None]. *)
Theorem outputs_agree (parses : pystr -> bool) (readme : pystr) :
  let out := Generator.main parses readme in
  (forall flow,
      Generator.story out = Some flow ->
      exists slides,
        Generator.deck out = Some slides
        /\ length slides = 1 + style_count Pdf.HeadingStyle flow
        /\ nth_error (Generator.printed out) 1
           = Some (Generator.FoundSections
                     (style_count Pdf.HeadingStyle flow
                      + style_count Pdf.SubHeadingStyle flow)))
  /\ (Generator.deck out = None ->
      Generator.story out = None
      /\ Generator.printed out
         = [Generator.ParsingReadme;
            Generator.FoundSections (length (parse_markdown readme));
            Generator.GeneratingPowerPoint])
  /\ (Generator.deck out = None <->
      exists s, In s (parse_markdown readme)
                /\ level s = 1%Z /\ title s = None).
Proof.
  cbv zeta. unfold Generator.main.
  pose proof (content_slides_raises (parse_markdown readme)) as Hr.
  unfold Slides.create_powerpoint.
  destruct (Slides.content_slides (parse_markdown readme)) as [more|] eqn:Ec.
  - assert (Hd : Slides.create_powerpoint (parse_markdown readme)
                 = Returns (Slides.title_slide :: more))
      by (unfold Slides.create_powerpoint; now rewrite Ec).
    destruct (Pdf.create_pdf parses (parse_markdown readme)) as [flow|] eqn:Ep;
      cbn [Generator.deck Generator.story Generator.printed];
      (split; [|split; [discriminate|]]).
    + intros f [= <-]. exists (Slides.title_slide :: more).
      destruct (story_style_counts _ _ Ep) as [-> ->].
      split; [reflexivity|]. split; [exact (@deck_length _ _ Hd)|].
      cbn [app nth_error]. do 2 f_equal.
      apply count_by_level, parse_levels.
    + split; [discriminate|]. intros K. apply Hr in K. discriminate.
    + discriminate.
    + split; [discriminate|]. intros K. apply Hr in K. discriminate.
  - cbn [Generator.deck Generator.story Generator.printed].
    split; [discriminate|]. split; [now split|].
    split; [intros _; now apply Hr|reflexivity].
Qed.

(** X20: a README in which no line starts with [## ] or [### ] gives a
    deck with the title slide only and a document with the title page
    only, and 0 sections are reported; the slide check of the verifier
    rejects such a deck. *)
Theorem headerless_readme (parses : pystr -> bool) (readme : pystr)
    (fs : files) :
  Forall no_header (split nl readme) ->
  (forall slides,
      Generator.deck (Generator.main parses readme) = Some slides ->
      deck_slides fs = Returns (length slides)) ->
  Generator.deck (Generator.main parses readme) = Some [Slides.title_slide]
  /\ Generator.story (Generator.main parses readme) = Some Pdf.title_page
  /\ nth_error (Generator.printed (Generator.main parses readme)) 1
     = Some (Generator.FoundSections 0)
  /\ fst (verify_powerpoint fs) = false.
Proof.
  intros H Hs.
  assert (E : parse_markdown readme = []).
  { unfold parse_markdown. cbv zeta.
    destruct (parse_loop_without_headers H) as [E1 E2]. now rewrite E2, E1. }
  unfold Generator.main in *. cbv zeta in *. rewrite E in *.
  cbn in Hs. specialize (Hs _ eq_refl).
  repeat split.
  unfold verify_powerpoint. rewrite Hs.
  destruct (deck_exists fs); [|reflexivity].
  now destruct (deck_size fs).
Qed.

Example headerless_readme_witness :
  Generator.deck (Generator.main (fun _ => false) [])
  = Some [Slides.title_slide]
  /\ Generator.story (Generator.main (fun _ => false) [])
     = Some Pdf.title_page
  /\ nth_error (Generator.printed (Generator.main (fun _ => false) [])) 1
     = Some (Generator.FoundSections 0)
  /\ fst (verify_powerpoint
            (mk_files true (Returns 1) (Returns 28000%N)
                      false Raises Raises false Raises)) = false.
Proof.
  apply (@headerless_readme (fun _ => false) []).
  - repeat constructor.
  - intros slides [= <-]. reflexivity.
Defined.

End EndToEnd.
